(** * tokend: lease management and secret providers

    A shallow embedding of the token-exchange provider
    ([lib/providers/token.js]), of the static-secret provider
    ([lib/providers/secret.js]), of the provider doubles of
    [test/lease-manager.js] and of the lease manager that drives them,
    with the properties of the specification proved over them.

    JavaScript promises are embedded as computations that thread the
    receiver ([this]) and end either resolved with a value or rejected
    with an error; what a computation asks of the outside world (metadata
    service, HTTP, the secret store, the logger, the timers) is recorded,
    in order, in a trace. *)

From Stdlib Require Import ZArith String Ascii List Bool Lia DecimalString.
From stdpp Require Import base option list strings gmap.
Import ListNotations.

Local Open Scope string_scope.
Local Open Scope Z_scope.
Local Open Scope list_scope.

(* ================================================================== *)
(** * JavaScript values                                                *)
(* ================================================================== *)

Module JS.

(** The values a provider handles.  Numbers are the integers the store
    and the configuration carry, plus [NaN]: integers a double holds
    exactly and renders in decimal, that is of magnitude at most 2^53;
    [dec] and [to_string] are the renderings of JavaScript on those. *)
#[warnings="-register-all"] Inductive value : Type :=
| Undefined
| Null
| Bool (b : bool)
| Num (n : Z)
| NaN
| Str (s : string)
| Obj (fields : list (string * value)).

(** [Error] objects: what [err.name] and [err.message] read. *)
Record error : Type := Error_ { name : string; message : string }.

Definition Error (msg : string) : error := Error_ "Error" msg.
Definition TypeError (msg : string) : error := Error_ "TypeError" msg.

(** ToBoolean. *)
Definition truthy (v : value) : bool :=
  match v with
  | Undefined | Null | NaN => false
  | Bool b => b
  | Num n => negb (n =? 0)
  | Str s => negb (String.eqb s EmptyString)
  | Obj _ => true
  end.

Definition is_nullish (v : value) : bool :=
  match v with
  | Undefined | Null => true
  | _ => false
  end.

Fixpoint assoc (k : string) (fs : list (string * value)) : value :=
  match fs with
  | [] => Undefined
  | (k', v) :: rest => if String.eqb k k' then v else assoc k rest
  end.

(** Property read [v.k]: throws on [null] and [undefined]; primitives
    have none of the property names the providers read. *)
Definition get (v : value) (k : string) : error + value :=
  match v with
  | Undefined | Null =>
      inl (TypeError ("Cannot read properties of null or undefined, reading " +:+ k))
  | Obj fs => inr (assoc k fs)
  | _ => inr Undefined
  end.

Definition dec (n : Z) : string := NilEmpty.string_of_int (Z.to_int n).

(** ToString, as a template literal applies it. *)
Definition to_string (v : value) : string :=
  match v with
  | Undefined => "undefined"
  | Null => "null"
  | Bool true => "true"
  | Bool false => "false"
  | Num n => dec n
  | NaN => "NaN"
  | Str s => s
  | Obj _ => "[object Object]"
  end.

Definition chr (n : nat) : string := String (ascii_of_nat n) EmptyString.
Definition dquote : string := chr 34.
Definition backslash : string := chr 92.
Definition newline : string := chr 10.

Definition hex_digit (n : nat) : string :=
  match n with
  | 10%nat => "a" | 11%nat => "b" | 12%nat => "c"
  | 13%nat => "d" | 14%nat => "e" | 15%nat => "f"
  | _ => chr (48 + n)
  end.

(** One code unit of a string, as [JSON.stringify] writes it. *)
Definition quote_char (c : ascii) : string :=
  let n := nat_of_ascii c in
  if Nat.eqb n 34 then backslash +:+ dquote
  else if Nat.eqb n 92 then backslash +:+ backslash
  else if Nat.eqb n 8 then backslash +:+ "b"
  else if Nat.eqb n 12 then backslash +:+ "f"
  else if Nat.eqb n 10 then backslash +:+ "n"
  else if Nat.eqb n 13 then backslash +:+ "r"
  else if Nat.eqb n 9 then backslash +:+ "t"
  else if Nat.ltb n 32
       then backslash +:+ "u00" +:+ hex_digit (n / 16) +:+ hex_digit (n mod 16)
  else String c EmptyString.

Fixpoint quote_body (s : string) : string :=
  match s with
  | EmptyString => EmptyString
  | String c rest => quote_char c +:+ quote_body rest
  end.

Definition quote (s : string) : string := dquote +:+ quote_body s +:+ dquote.

Fixpoint join (sep : string) (l : list string) : string :=
  match l with
  | [] => EmptyString
  | [x] => x
  | x :: rest => x +:+ sep +:+ join sep rest
  end.

(** [JSON.stringify]; [None] is its [undefined]. Members whose value
    is [undefined] are left out of an object. *)
Fixpoint stringify (v : value) : option string :=
  match v with
  | Undefined => None
  | Null | NaN => Some "null"
  | Bool true => Some "true"
  | Bool false => Some "false"
  | Num n => Some (dec n)
  | Str s => Some (quote s)
  | Obj fs =>
      let members :=
        (fix members (fs : list (string * value)) : list string :=
           match fs with
           | [] => []
           | (k, v) :: rest =>
               match stringify v with
               | Some s => (quote k +:+ ":" +:+ s) :: members rest
               | None => members rest
               end
           end) fs in
      Some ("{" +:+ join "," members +:+ "}")
  end.

End JS.

(* ================================================================== *)
(** * Promises                                                         *)
(* ================================================================== *)

Module Promise.

(** A computation over a receiver of type [S]: it returns the receiver
    as it leaves it, the requests it made (of type [IO]) and how it
    settled: [inl e] rejected with [e], [inr a] resolved with [a]. *)
Definition M (S IO E A : Type) : Type := S -> S * list IO * (E + A).

Section Ops.
Context {S IO E : Type}.

Definition resolve {A} (a : A) : M S IO E A := fun s => (s, [], inr a).
Definition reject {A} (e : E) : M S IO E A := fun s => (s, [], inl e).

(** [m.then(k)] *)
Definition bind {A B} (m : M S IO E A) (k : A -> M S IO E B) : M S IO E B :=
  fun s =>
    match m s with
    | (s1, tr1, inl e) => (s1, tr1, inl e)
    | (s1, tr1, inr a) =>
        match k a s1 with
        | (s2, tr2, r) => (s2, tr1 ++ tr2, r)
        end
    end.

(** [m.catch(h)] *)
Definition catch {A} (m : M S IO E A) (h : E -> M S IO E A) : M S IO E A :=
  fun s =>
    match m s with
    | (s1, tr1, inr a) => (s1, tr1, inr a)
    | (s1, tr1, inl e) =>
        match h e s1 with
        | (s2, tr2, r) => (s2, tr1 ++ tr2, r)
        end
    end.

Definition this : M S IO E S := fun s => (s, [], inr s).
Definition modify (f : S -> S) : M S IO E unit := fun s => (f s, [], inr tt).
Definition request (x : IO) : M S IO E unit := fun s => (s, [x], inr tt).

(** A synchronous step that may throw. *)
Definition lift {A} (r : E + A) : M S IO E A := fun s => (s, [], r).

End Ops.

(** [Promise.all] over requests that have settled: the values in order,
    or the first rejection (the requests are taken to settle in the
    order they were made). *)
Fixpoint all {E A : Type} (l : list (E + A)) : E + list A :=
  match l with
  | [] => inr []
  | inl e :: _ => inl e
  | inr a :: rest =>
      match all rest with
      | inl e => inl e
      | inr l' => inr (a :: l')
      end
  end.

End Promise.

Declare Scope promise_scope.
Delimit Scope promise_scope with promise.
Notation "'let*' x ':=' m 'in' k" := (Promise.bind m (fun x => k))
  (at level 10, x name, m at level 100, k at level 200) : promise_scope.
Notation "m ';;' k" := (Promise.bind m (fun _ => k))
  (at level 100, k at level 200, right associativity) : promise_scope.

(* ================================================================== *)
(** * Ambient configuration and runtime                                *)
(* ================================================================== *)

(** What [lib/providers/token.js] reads when the module is loaded: the
    process configuration ([Config.get]), the [OK] constant of
    [control/util/status-codes], and the two runtime functions it calls,
    [JSON.parse] and [new Date(v).getTime()]. *)
Record ambient : Type := Ambient {
  DEFAULT_VAULT_PORT : JS.value;            (* Config.get('vault:port') *)
  DEFAULT_VAULT_HOST : JS.value;            (* Config.get('vault:host') *)
  DEFAULT_VAULT_TLS : JS.value;             (* Config.get('vault:tls') *)
  DEFAULT_WARDEN_HOST : JS.value;           (* Config.get('warden:host') *)
  DEFAULT_WARDEN_PORT : JS.value;           (* Config.get('warden:port') *)
  DEFAULT_WARDEN_PATH : JS.value;           (* Config.get('warden:path') *)
  VAULT_TOKEN_RENEW_INCREMENT : JS.value;   (* Config.get('vault:token_renew_increment') *)
  STATUS_CODES_OK : Z;
  JSON_parse : string -> JS.error + JS.value;
  Date_getTime : JS.value -> JS.value
}.

(* ================================================================== *)
(** * The token provider ([lib/providers/token.js])                    *)
(* ================================================================== *)

Module TokenProvider.

Definition METADATA_ENDPOINTS : list string :=
  [ "/latest/dynamic/instance-identity/document";
    "/latest/dynamic/instance-identity/signature";
    "/latest/dynamic/instance-identity/pkcs7" ].

(** The store client, kept as the options [new Vault({endpoint, token})]
    was given, or as the endpoint and token of an injected client; what
    the [node-vault] client makes of an [endpoint] that is [undefined]
    is its own affair. *)
Record vaultClient : Type := VaultClient {
  vc_endpoint : JS.value;
  vc_token : JS.value
}.

(** The constructor's [options].  A caller's object may carry any
    property; listed are those the constructor reads ([vault.endpoint],
    [vault.client], [warden.host], [warden.port], and the whole object
    handed to [metadata]) and the connection properties it does not
    read ([vault.host], [vault.port], [vault.tls], [warden.path]). *)
Record vaultOptions : Type := VaultOptions {
  vo_endpoint : JS.value;
  vo_client : option vaultClient;
  vo_host : JS.value;
  vo_port : JS.value;
  vo_tls : JS.value
}.

Record wardenOptions : Type := WardenOptions {
  wo_host : JS.value;
  wo_port : JS.value;
  wo_path : JS.value
}.

Record options : Type := Options {
  opt_metadata : JS.value;
  opt_vault : option vaultOptions;
  opt_warden : option wardenOptions
}.

(** [{}] *)
Definition no_options : options := Options JS.Undefined None None.

(** The request options kept in [this._warden]. *)
Record wardenRequest : Type := WardenRequest {
  method : string;
  headers : gmap string JS.value;
  hostname : JS.value;
  port : JS.value;
  path : JS.value
}.

(** The receiver.  [_metadata] is the client [metadata(opts)] builds
    ([utils/metadata]), kept as the options it was built from. *)
Record t : Type := Make {
  _metadata : options;
  _client : vaultClient;
  _warden : wardenRequest;
  token : JS.value;
  data : JS.value;
  creation_time : JS.value;
  expiration_time : JS.value
}.

(** Requests to the outside world. *)
Inductive io : Type :=
| MetadataRequest (client : options) (path : string)
| HttpRequest (opts : wardenRequest) (body : string)
| TokenRenew (client : vaultClient) (token increment : JS.value)
| Log (level msg provider : string) (status lease_duration : JS.value)
      (error : JS.error).

(** What an HTTP exchange comes to: an [error] event on the request, or
    a response with its status code, its [data] chunks and the chunk, if
    any, handed to the [end] listener. *)
Inductive httpOutcome : Type :=
| HttpError (e : JS.error)
| HttpResponse (statusCode : Z) (chunks : list string) (last : option string).

(** The outside world: how each request is answered. *)
Record world : Type := World {
  metadata_request : options -> string -> JS.error + string;
  http_request : wardenRequest -> string -> httpOutcome;
  tokenRenew : vaultClient -> JS.value -> JS.value -> JS.error + JS.value
}.

Definition P (A : Type) : Type := Promise.M t io JS.error A.

(** [checkNotNull] of the [conditional] package: it throws its
    [IllegalValueError], with the message, on [null] and [undefined]. *)
Definition checkNotNull (v : JS.value) (msg : string) : JS.error + unit :=
  if JS.is_nullish v then inl (JS.Error_ "IllegalValueError" msg) else inr tt.


Definition set_warden (self : t) (w : wardenRequest) : t :=
  Make (_metadata self) (_client self) w (token self) (data self)
       (creation_time self) (expiration_time self).
Definition set_client (self : t) (c : vaultClient) : t :=
  Make (_metadata self) c (_warden self) (token self) (data self)
       (creation_time self) (expiration_time self).
Definition set_token (self : t) (v : JS.value) : t :=
  Make (_metadata self) (_client self) (_warden self) v (data self)
       (creation_time self) (expiration_time self).
Definition set_data (self : t) (v : JS.value) : t :=
  Make (_metadata self) (_client self) (_warden self) (token self) v
       (creation_time self) (expiration_time self).
Definition set_creation_time (self : t) (v : JS.value) : t :=
  Make (_metadata self) (_client self) (_warden self) (token self) (data self)
       v (expiration_time self).
Definition set_expiration_time (self : t) (v : JS.value) : t :=
  Make (_metadata self) (_client self) (_warden self) (token self) (data self)
       (creation_time self) v.

Definition set_header (w : wardenRequest) (k : string) (v : JS.value) : wardenRequest :=
  WardenRequest (method w) (<[k := v]> (headers w)) (hostname w) (port w) (path w).

(** [constructor(secret, token, options)]; [None] is an omitted
    [options]. *)
Definition constructor (amb : ambient) (secret token : JS.value)
    (options : option options) : JS.error + t :=
  match checkNotNull secret "secret argument is required" with
  | inl e => inl e
  | inr _ =>
  match checkNotNull token "token argument is required" with
  | inl e => inl e
  | inr _ =>
      let opts := default no_options options in
      let endpoint :=
        JS.Str ((if JS.truthy (DEFAULT_VAULT_TLS amb) then "https" else "http")
                +:+ "://" +:+ JS.to_string (DEFAULT_VAULT_HOST amb)
                +:+ ":" +:+ JS.to_string (DEFAULT_VAULT_PORT amb)) in
      let vault :=
        match opt_vault opts with
        | Some v => (vo_endpoint v, vo_client v)
        | None => (endpoint, None)
        end in
      let client :=
        match snd vault with
        | Some c => c
        | None => VaultClient (fst vault) token
        end in
      let warden :=
        WardenRequest "POST" {[ "Content-Type" := JS.Str "application/json" ]}
          (DEFAULT_WARDEN_HOST amb) (DEFAULT_WARDEN_PORT amb)
          (DEFAULT_WARDEN_PATH amb) in
      let warden :=
        match opt_warden opts with
        | Some o =>
            WardenRequest (method warden) (headers warden)
              (wo_host o) (wo_port o) (path warden)
        | None => warden
        end in
      inr (Make opts client warden JS.Null JS.Null JS.Null JS.Null)
  end
  end.

Local Open Scope promise_scope.

(** [_getDocument()]: one request per metadata endpoint, all made
    before any is awaited. *)
Definition _getDocument (w : world) : P (list string) :=
  fun self =>
    (self,
     map (MetadataRequest (_metadata self)) METADATA_ENDPOINTS,
     Promise.all (map (metadata_request w (_metadata self)) METADATA_ENDPOINTS)).

(** [_post(payload)] *)
Definition _post (amb : ambient) (w : world) (payload : JS.value) : P JS.value :=
  match JS.stringify payload with
  | None => Promise.reject (JS.TypeError "Cannot read properties of undefined")
  | Some payloadStr =>
      Promise.modify (fun self =>
        set_warden self
          (set_header (_warden self) "Content-Length"
             (JS.Num (Z.of_nat (String.length payloadStr))))) ;;
      let* self := Promise.this in
      Promise.request (HttpRequest (_warden self) payloadStr) ;;
      match http_request w (_warden self) payloadStr with
      | HttpError err => Promise.reject err
      | HttpResponse statusCode chunks last =>
          let body :=
            fold_left String.append chunks EmptyString
            +:+ default EmptyString last in
          if negb (statusCode =? STATUS_CODES_OK amb)
          then Promise.reject (JS.Error (JS.dec statusCode +:+ ": " +:+ body))
          else
            match JSON_parse amb body with
            | inl ex => Promise.reject ex
            | inr parsedBody => Promise.resolve parsedBody
            end
      end
  end.

(** [data[i]] on the array of metadata values. *)
Definition index (data : list string) (i : nat) : JS.value :=
  from_option JS.Str JS.Undefined (data !! i).

Definition pkcs7_envelope (body : JS.value) : string :=
  "-----BEGIN PKCS7-----" +:+ JS.newline +:+ JS.to_string body +:+ JS.newline
  +:+ "-----END PKCS7-----" +:+ JS.newline.

(** [_sendDocument(data)] *)
Definition _sendDocument (amb : ambient) (w : world) (data : list string) : P JS.value :=
  _post amb w
    (JS.Obj [ ("document", index data 0);
              ("signature", JS.Str (pkcs7_envelope (index data 2))) ]).

(** The last [then] of [initialize]. *)
Definition initialize_then (amb : ambient) (data : JS.value) : P JS.value :=
  let* token := Promise.lift (JS.get data "client_token") in
  let* expiration := Promise.lift (JS.get data "expiration_time") in
  Promise.modify (fun self => set_expiration_time self (Date_getTime amb expiration)) ;;
  let* creation := Promise.lift (JS.get data "creation_time") in
  Promise.modify (fun self => set_creation_time self (Date_getTime amb creation)) ;;
  Promise.modify (fun self => set_token self token) ;;
  let* lease_duration := Promise.lift (JS.get data "lease_duration") in
  Promise.modify (fun self =>
    set_data self
      (JS.Obj [ ("lease_id", token);
                ("lease_duration", lease_duration);
                ("data", JS.Obj [ ("token", token) ]) ])) ;;
  Promise.modify (fun self =>
    set_client self (VaultClient (vc_endpoint (_client self)) token)) ;;
  let* self := Promise.this in
  Promise.resolve (TokenProvider.data self).

(** [initialize()] *)
Definition initialize (amb : ambient) (w : world) : P JS.value :=
  fun self =>
    if JS.truthy (data self) then Promise.resolve (data self) self
    else
      (let* document := _getDocument w in
       let* response := _sendDocument amb w document in
       initialize_then amb response) self.

Definition not_initialized : JS.error :=
  JS.Error ("This token provider has not been initialized or has not received a valid"
            +:+ " token from" +:+ " Warden.").

(** The [then] of [renew]. *)
Definition renew_then (response : JS.value) : P JS.value :=
  let* auth := Promise.lift (JS.get response "auth") in
  let* lease_duration := Promise.lift (JS.get auth "lease_duration") in
  let* auth' := Promise.lift (JS.get response "auth") in
  let* client_token := Promise.lift (JS.get auth' "client_token") in
  Promise.modify (fun self =>
    set_data self
      (JS.Obj [ ("lease_duration", lease_duration);
                ("data", JS.Obj [ ("token", client_token) ]) ])) ;;
  let* self := Promise.this in
  Promise.resolve (data self).

(** The [catch] of [renew]. *)
Definition renew_catch (err : JS.error) : P JS.value :=
  if String.eqb (JS.name err) "StatusCodeError" then Promise.reject err
  else
    Promise.request
      (Log "INFO" "An error was thrown but was ignored" "TokenProvider"
           JS.Undefined JS.Undefined err) ;;
    let* self := Promise.this in
    Promise.resolve (data self).

(** [renew()] *)
Definition renew (amb : ambient) (w : world) : P JS.value :=
  fun self =>
    if negb (JS.truthy (token self)) then Promise.reject not_initialized self
    else
      Promise.catch
        (Promise.request
           (TokenRenew (_client self) (token self) (VAULT_TOKEN_RENEW_INCREMENT amb)) ;;
         let* response :=
           Promise.lift
             (tokenRenew w (_client self) (token self) (VAULT_TOKEN_RENEW_INCREMENT amb)) in
         renew_then response)
        renew_catch self.

(** [invalidate()] *)
Definition invalidate (self : t) : t := set_data self JS.Null.

(** Calls a caller can make on a provider, each with the world that
    answers it. *)
Inductive call : Type :=
| Initialize (w : world)
| Renew (w : world)
| Invalidate.

Definition after (amb : ambient) (c : call) (self : t) : t :=
  match c with
  | Initialize w => fst (fst (initialize amb w self))
  | Renew w => fst (fst (renew amb w self))
  | Invalidate => invalidate self
  end.

(** The provider after a sequence of calls. *)
Definition after_all (amb : ambient) (calls : list call) (self : t) : t :=
  fold_left (fun s c => after amb c s) calls self.

Definition resolved {S IO E A} (r : S * list IO * (E + A)) : bool :=
  match snd r with
  | inr _ => true
  | inl _ => false
  end.

(** Providers on which no [initialize] has resolved: freshly constructed
    ones, and those after any call other than a resolving [initialize]. *)
Inductive uninitialized (amb : ambient) : t -> Prop :=
| uninitialized_new secret token options self :
    constructor amb secret token options = inr self ->
    uninitialized amb self
| uninitialized_call c self :
    uninitialized amb self ->
    (forall w, c = Initialize w -> resolved (initialize amb w self) = false) ->
    uninitialized amb (after amb c self).

(** Providers a caller can hold: constructed, then called any number of
    times. *)
Inductive reachable (amb : ambient) : t -> Prop :=
| reachable_new secret token options self :
    constructor amb secret token options = inr self ->
    reachable amb self
| reachable_call c self :
    reachable amb self ->
    reachable amb (after amb c self).

(** The request bodies a trace posts. *)
Definition posted (tr : list io) : list string :=
  omap (fun x => match x with HttpRequest _ body => Some body | _ => None end) tr.

(** Calls that are not [initialize]. *)
Definition renewal_or_invalidation (c : call) : bool :=
  match c with
  | Initialize _ => false
  | _ => true
  end.

(** An option that, when given, replaces a default. *)
Definition overridable (given default : JS.value) : JS.value :=
  if JS.is_nullish given then default else given.

(** The store endpoint built from the process configuration. *)
Definition default_endpoint (amb : ambient) : JS.value :=
  JS.Str ((if JS.truthy (DEFAULT_VAULT_TLS amb) then "https" else "http")
          +:+ "://" +:+ JS.to_string (DEFAULT_VAULT_HOST amb)
          +:+ ":" +:+ JS.to_string (DEFAULT_VAULT_PORT amb)).

(** The connection part of the request options, which no method
    writes. *)
Definition endpoint (wr : wardenRequest) : string * JS.value * JS.value * JS.value :=
  (method wr, hostname wr, port wr, path wr).

End TokenProvider.

(* ================================================================== *)
(** * The static-secret provider ([lib/providers/secret.js])           *)
(* ================================================================== *)

Module Providers.

(** A method of a class over instances with fields [F]: from the
    receiver, that is the name of the class it was constructed as
    ([this.constructor.name]) and its fields, and from the arguments, to
    the fields it leaves and what the caller observes (of type [R]). *)
Definition method (F R : Type) : Type := string -> F -> list JS.value -> F * R.

(** A class: its name, the class it extends, the methods it declares. *)
#[warnings="-register-all"] Inductive class (F R : Type) : Type :=
| Class (name : string) (super : option (class F R))
        (own : gmap string (method F R)).
Arguments Class {F R} name super own.

Definition class_name {F R} (c : class F R) : string :=
  match c with
  | Class name _ _ => name
  end.

(** Property lookup along the prototype chain. *)
Fixpoint lookup_method {F R} (c : class F R) (m : string) : option (method F R) :=
  match c with
  | Class _ super own =>
      match own !! m with
      | Some f => Some f
      | None =>
          match super with
          | Some parent => lookup_method parent m
          | None => None
          end
      end
  end.

Record object (F R : Type) : Type := Object {
  proto : class F R;
  fields : F
}.
Arguments Object {F R} proto fields.
Arguments proto {F R} o.
Arguments fields {F R} o.

(** [require('./generic')]: the class [SecretProvider] extends.  Its
    constructor (which may throw, and which runs with a receiver whose
    class is the one being constructed) and its methods live in
    [lib/providers/generic.js]. *)
Record generic (F R : Type) : Type := Generic {
  generic_constructor : string -> JS.value -> JS.value -> JS.error + F;
  generic_methods : gmap string (method F R);
  generic_super : option (class F R)
}.
Arguments generic_constructor {F R} g.
Arguments generic_methods {F R} g.
Arguments generic_super {F R} g.

Definition GenericProvider {F R} (g : generic F R) : class F R :=
  Class "GenericProvider" (generic_super g) (generic_methods g).

(** [class SecretProvider extends GenericProvider], which declares a
    constructor and no method. *)
Definition SecretProvider {F R} (g : generic F R) : class F R :=
  Class "SecretProvider" (Some (GenericProvider g)) ∅.

(** [new GenericProvider(path, token)] *)
Definition new_GenericProvider {F R} (g : generic F R) (path token : JS.value)
    : JS.error + object F R :=
  match generic_constructor g "GenericProvider" path token with
  | inl e => inl e
  | inr f => inr (Object (GenericProvider g) f)
  end.

(** [new SecretProvider(path, token)]: [super(`secret/${path}`, token)] *)
Definition new_SecretProvider {F R} (g : generic F R) (path token : JS.value)
    : JS.error + object F R :=
  match generic_constructor g "SecretProvider"
          (JS.Str ("secret/" +:+ JS.to_string path)) token with
  | inl e => inl e
  | inr f => inr (Object (SecretProvider g) f)
  end.

(** ['secret/' + p] *)
Definition secret_path (p : JS.value) : JS.value :=
  JS.Str ("secret/" +:+ JS.to_string p).

(** [o.m(args)]: [None] when [o] has no method [m]. *)
Definition invoke {F R} (o : object F R) (m : string) (args : list JS.value)
    : object F R * option R :=
  match lookup_method (proto o) m with
  | Some f =>
      match f (class_name (proto o)) (fields o) args with
      | (f', r) => (Object (proto o) f', Some r)
      end
  | None => (o, None)
  end.

(** What a caller observes over a sequence of method calls. *)
Fixpoint run {F R} (o : object F R) (calls : list (string * list JS.value))
    : list (option R) :=
  match calls with
  | [] => []
  | (m, args) :: rest =>
      match invoke o m args with
      | (o', r) => r :: run o' rest
      end
  end.

(** What a caller observes of a construction followed by calls. *)
Definition behaviour {F R} (o : JS.error + object F R)
    (calls : list (string * list JS.value)) : JS.error + list (option R) :=
  match o with
  | inl e => inl e
  | inr o => inr (run o calls)
  end.


End Providers.

(* ================================================================== *)
(** * The lease manager ([lib/lease-manager.js])                       *)
(* ================================================================== *)

Module LeaseManager.

(** Modelled from the spec: the closed set of lifecycle states of
    [lib/utils/status], which [test/lease-manager.js] reads as
    ['PENDING'], ['READY'] and [STATUS.ERROR]. *)
Inductive STATUS : Type := PENDING | READY | ERROR.

(** Modelled from the spec: the lifecycle notifications a manager emits
    (section 6, events emitted). *)
Inductive notification : Type := ready | renewed | error_ | invalidate_.

(** Modelled from the spec: the value object a Provider's [initialize]
    resolves with, [{data, lease_duration, renewable?}]. *)
Record acquired : Type := Acquired {
  a_data : JS.value;
  a_lease_duration : Z;
  a_renewable : option bool
}.

(** Modelled from the spec: what a Provider's [renew] resolves with,
    [{data?, lease_duration}]; an omitted [data] means the value is
    unchanged. *)
Record extended : Type := Extended {
  e_data : option JS.value;
  e_lease_duration : Z
}.

(** Modelled from the spec: the Provider capability contract of sections
    3 and 4.4 over a provider state [P]: [initialize], [renew],
    [invalidate], the declared capability [expires] with the absolute
    [expiration_time] it exposes, and the cached value that [invalidate]
    clears. *)
Class Provider (P : Type) : Type := {
  p_initialize : P -> P * (JS.error + acquired);
  p_renew : P -> P * (JS.error + extended);
  p_invalidate : P -> P;
  p_expires : P -> bool;
  p_expiration_time : P -> JS.value;
  p_cached : P -> option acquired;
  p_invalidate_clears : forall p, p_cached (p_invalidate p) = None
}.

(** Modelled from the spec: the options a manager is constructed with
    (section 6): a fixed renewal delay that bypasses the half-lease
    computation, the renewal increment of the expiration-ceiling check,
    and the comparison of that check, which section 9 leaves as a
    policy: [ceiling now increment expiration_time] says that renewing
    now by the increment would not extend validity. *)
Record options : Type := Options {
  delay : option Z;
  increment : Z;
  ceiling : Z -> Z -> JS.value -> bool
}.

(** Modelled from the spec: the Lease Manager of section 3.  [_timer] is
    the handle of the armed renewal timer and [_timeout] its delay, both
    absent when no renewal is scheduled ([test/lease-manager.js] reads
    them under these names); [handles] is the scheduler's supply of
    fresh timer handles. *)
Record t (P : Type) : Type := Make {
  provider : P;
  opts : options;
  status : STATUS;
  data : option JS.value;
  lease_duration : Z;
  renewable : bool;
  expires : bool;
  error : option JS.error;
  _timer : option nat;
  _timeout : option Z;
  handles : nat
}.
Arguments Make {P}.
Arguments provider {P}.
Arguments opts {P}.
Arguments status {P}.
Arguments data {P}.
Arguments lease_duration {P}.
Arguments renewable {P}.
Arguments expires {P}.
Arguments error {P}.
Arguments _timer {P}.
Arguments _timeout {P}.
Arguments handles {P}.

(** Modelled from the spec: what a manager asks of its Provider, of its
    subscribers and of the scheduler. *)
Inductive io : Type :=
| CallInitialize
| CallRenew
| CallInvalidate
| Emit (n : notification)
| SetTimeout (handle : nat) (ms : Z)
| ClearTimeout (handle : nat).

(** Modelled from the spec: a manager's computations, settled as its
    promises settle. *)
Definition M (P A : Type) : Type := Promise.M (t P) io JS.error A.

(** Modelled from the spec: the cancellation a manager issues for the
    timer it holds (section 4.2). *)
Definition cancelled {P : Type} (m : t P) : list io :=
  match _timer m with
  | Some h => [ClearTimeout h]
  | None => []
  end.

Section Manager.
Context {P : Type} `{Provider P}.

Local Open Scope promise_scope.

(** Modelled from the spec: a newly constructed manager (section 8):
    [PENDING], no data, lease duration [0], not renewable, no timer;
    [expires] is the Provider's declared capability. *)
Definition constructor (p : P) (o : options) : t P :=
  Make p o PENDING None 0 false (p_expires p) None None None 0.

(** Modelled from the spec: assignments to the manager's fields. *)
Definition set_provider (m : t P) (p : P) : t P :=
  Make p (opts m) (status m) (data m) (lease_duration m) (renewable m)
       (expires m) (error m) (_timer m) (_timeout m) (handles m).
Definition set_status (m : t P) (s : STATUS) : t P :=
  Make (provider m) (opts m) s (data m) (lease_duration m) (renewable m)
       (expires m) (error m) (_timer m) (_timeout m) (handles m).
Definition set_data (m : t P) (d : option JS.value) : t P :=
  Make (provider m) (opts m) (status m) d (lease_duration m) (renewable m)
       (expires m) (error m) (_timer m) (_timeout m) (handles m).
Definition set_lease_duration (m : t P) (n : Z) : t P :=
  Make (provider m) (opts m) (status m) (data m) n (renewable m)
       (expires m) (error m) (_timer m) (_timeout m) (handles m).
Definition set_renewable (m : t P) (b : bool) : t P :=
  Make (provider m) (opts m) (status m) (data m) (lease_duration m) b
       (expires m) (error m) (_timer m) (_timeout m) (handles m).
Definition set_error (m : t P) (e : option JS.error) : t P :=
  Make (provider m) (opts m) (status m) (data m) (lease_duration m) (renewable m)
       (expires m) e (_timer m) (_timeout m) (handles m).
Definition set_timer (m : t P) (h : option nat) (d : option Z) (next : nat) : t P :=
  Make (provider m) (opts m) (status m) (data m) (lease_duration m) (renewable m)
       (expires m) (error m) h d next.

(** Modelled from the spec: the renewal delay of section 4.2: the floor
    of half the lease duration, in seconds, converted to the
    scheduler's milliseconds, unless the options fix the delay. *)
Definition renewal_delay (m : t P) : Z :=
  match delay (opts m) with
  | Some d => d
  | None => (lease_duration m / 2) * 1000
  end.

(** Modelled from the spec: cancelling and discarding the timer. *)
Definition clear : M P unit :=
  let* m := Promise.this in
  match _timer m with
  | Some h =>
      Promise.request (ClearTimeout h) ;;
      Promise.modify (fun m => set_timer m None None (handles m))
  | None => Promise.modify (fun m => set_timer m None None (handles m))
  end.

(** Modelled from the spec: arming the renewal timer (section 4.2): any
    previously armed timer is cancelled, then a new one is armed, sized
    from the lease duration just learned. *)
Definition arm : M P unit :=
  clear ;;
  let* m := Promise.this in
  Promise.request (SetTimeout (handles m) (renewal_delay m)) ;;
  Promise.modify (fun m =>
    set_timer m (Some (handles m)) (Some (renewal_delay m)) (S (handles m))).

(** Modelled from the spec: invoking the Provider's [initialize],
    [renew] and [invalidate]; the Provider is owned by the manager and
    is left as the call leaves it. *)
Definition call_initialize : M P acquired :=
  fun m =>
    match p_initialize (provider m) with
    | (p, r) => (set_provider m p, [CallInitialize], r)
    end.

Definition call_renew : M P extended :=
  fun m =>
    match p_renew (provider m) with
    | (p, r) => (set_provider m p, [CallRenew], r)
    end.

Definition call_invalidate : M P unit :=
  Promise.request CallInvalidate ;;
  Promise.modify (fun m => set_provider m (p_invalidate (provider m))).

(** Modelled from the spec: [initialize()] of section 4.1. A manager
    that is already [READY] returns its current value; otherwise the
    Provider's [initialize] is invoked. On success the manager takes
    the data and lease duration, derives [renewable] (true unless
    explicitly false), clears [error], becomes [READY], emits [ready]
    and, only if renewable, arms the timer. On failure it clears data
    and lease duration, keeps its status and propagates the failure. *)
Definition initialize : M P (option JS.value) :=
  let* m := Promise.this in
  match status m with
  | READY => Promise.resolve (data m)
  | _ =>
      Promise.catch
        (let* r := call_initialize in
         Promise.modify (fun m => set_data m (Some (a_data r))) ;;
         Promise.modify (fun m => set_lease_duration m (a_lease_duration r)) ;;
         Promise.modify (fun m =>
           set_renewable m (match a_renewable r with Some false => false | _ => true end)) ;;
         Promise.modify (fun m => set_error m None) ;;
         Promise.modify (fun m => set_status m READY) ;;
         Promise.request (Emit ready) ;;
         let* m := Promise.this in
         (if renewable m then arm else Promise.resolve tt) ;;
         Promise.resolve (Some (a_data r)))
        (fun e =>
           Promise.modify (fun m => set_data m None) ;;
           Promise.modify (fun m => set_lease_duration m 0) ;;
           Promise.reject e)
  end.

(** Modelled from the spec: the invalidation of section 4.1, step 1. *)
Definition invalidate : M P unit :=
  Promise.modify (fun m => set_data m None) ;;
  Promise.modify (fun m => set_lease_duration m 0) ;;
  Promise.modify (fun m => set_error m None) ;;
  clear ;;
  Promise.modify (fun m => set_status m PENDING) ;;
  call_invalidate ;;
  Promise.request (Emit invalidate_).

(** Modelled from the spec: the expiration-ceiling check of section 4.1,
    step 1. *)
Definition expiring (m : t P) (now : Z) : bool :=
  expires m
  && ceiling (opts m) now (increment (opts m)) (p_expiration_time (provider m)).

(** Modelled from the spec: the renewal cycle of section 4.1, run when
    the armed timer fires or called directly, at time [now]. In [ERROR]
    it does nothing. Otherwise, when the manager expires and the
    ceiling check holds, it invalidates; else it invokes the Provider's
    [renew]: on success it takes the lease duration, takes the data only
    if supplied, emits [renewed] and re-arms the timer; on failure it
    records the error, becomes [ERROR], clears the timer and emits
    [error], settling without a rejection. *)
Definition _renew (now : Z) : M P unit :=
  let* m := Promise.this in
  match status m with
  | ERROR => Promise.resolve tt
  | _ =>
      if expiring m now then invalidate
      else
        Promise.catch
          (let* r := call_renew in
           Promise.modify (fun m => set_lease_duration m (e_lease_duration r)) ;;
           Promise.modify (fun m =>
             set_data m (match e_data r with Some d => Some d | None => data m end)) ;;
           Promise.request (Emit renewed) ;;
           arm)
          (fun e =>
             Promise.modify (fun m => set_error m (Some e)) ;;
             Promise.modify (fun m => set_status m ERROR) ;;
             clear ;;
             Promise.request (Emit error_))
  end.

End Manager.

(** Modelled from the spec: one reading of the ceiling check: renewing
    by the increment now would reach the expiration time; an expiration
    time that is not a number gives no validity to extend. *)
Definition reaches_ceiling (now increment : Z) (expiration_time : JS.value) : bool :=
  match expiration_time with
  | JS.Num e => e <=? now + increment
  | _ => true
  end.

End LeaseManager.

(* ================================================================== *)
(** * The provider doubles of [test/lease-manager.js]                  *)
(* ================================================================== *)

Module Doubles.
Import LeaseManager.

Definition SECRET : JS.value := JS.Str "SECRET".

(** [class FailToRenewProvider]: no state; it declares neither
    [invalidate] nor an expiration time. *)
#[export] Instance FailToRenewProvider : Provider unit := {|
  p_initialize := fun _ => (tt, inr (Acquired SECRET 1 None));
  p_renew := fun _ => (tt, inl (JS.Error "Failed to renew."));
  p_invalidate := fun p => p;
  p_expires := fun _ => false;
  p_expiration_time := fun _ => JS.Undefined;
  p_cached := fun _ => None;
  p_invalidate_clears := fun _ => eq_refl
|}.

(** [class CountingRenewProvider]: the state is [this.count], an
    integer a double holds exactly (beyond 2^53 the subtraction of the
    source no longer changes the number). *)
Record CountingRenew : Type := CountingRenew_new { count : Z }.

#[export] Instance CountingRenewProvider : Provider CountingRenew := {|
  p_initialize := fun p => (p, inr (Acquired SECRET 1 None));
  p_renew := fun p =>
    if 1 <? count p
    then (CountingRenew_new (count p - 1),
          inl (JS.Error ("Need " +:+ JS.dec (count p - 1) +:+ " more calls to renew")))
    else (p, inr (Extended None 2));
  p_invalidate := fun p => p;
  p_expires := fun _ => false;
  p_expiration_time := fun _ => JS.Undefined;
  p_cached := fun _ => None;
  p_invalidate_clears := fun _ => eq_refl
|}.

(** [class ChangingTimeoutProvider]: the state is [this.renewed]. *)
Record ChangingTimeout : Type := ChangingTimeout_new' { renewed : bool }.

Definition ChangingTimeout_new : ChangingTimeout := ChangingTimeout_new' false.

#[export] Instance ChangingTimeoutProvider : Provider ChangingTimeout := {|
  p_initialize := fun p => (p, inr (Acquired SECRET 1 None));
  p_renew := fun p =>
    if renewed p
    then (p, inr (Extended (Some SECRET) 1))
    else (ChangingTimeout_new' true, inr (Extended (Some SECRET) 2));
  p_invalidate := fun p => p;
  p_expires := fun _ => false;
  p_expiration_time := fun _ => JS.Undefined;
  p_cached := fun _ => None;
  p_invalidate_clears := fun _ => eq_refl
|}.

(** [class ExpiringProvider].  [this.data] is the value object or,
    once invalidated, [null]. *)
Record Expiring : Type := Expiring_make {
  x_expiration_time : JS.value;
  x_creation_time : JS.value;
  x_data : option acquired
}.

(** Its constructor, given how [new Date()] renders: [new Date() + 2]
    is that rendering followed by the digit. *)
Definition Expiring_new (date : string) : Expiring :=
  Expiring_make (JS.Str (date +:+ "2")) (JS.Str date) (Some (Acquired SECRET 2 None)).

(** Its [initialize()] and [renew()] resolve with [this.data], which
    is [null] ([None]) once invalidated; [invalidate()] clears it. *)
Definition Expiring_initialize (p : Expiring) : Expiring * (JS.error + option acquired) :=
  (p, inr (x_data p)).

Definition Expiring_renew (p : Expiring) : Expiring * (JS.error + option acquired) :=
  (p, inr (x_data p)).

Definition Expiring_invalidate (p : Expiring) : Expiring :=
  Expiring_make (x_expiration_time p) (x_creation_time p) None.

(** Modelled from the spec: how a manager takes what a Provider
    resolved with.  The value object of section 3 is read field by
    field; a resolved [null] has no field to read, and the read throws
    a [TypeError] inside the manager's continuation, which the manager
    meets as a failed call. *)
Definition read_value {A : Type} (settled : JS.error + option A) : JS.error + A :=
  match settled with
  | inl e => inl e
  | inr (Some v) => inr v
  | inr None => inl (JS.TypeError "Cannot read properties of null")
  end.

(** Modelled from the spec: [ExpiringProvider] as the Provider of a
    manager; it exposes [expiration_time] and [invalidate]. *)
#[export] Instance ExpiringProvider : Provider Expiring := {|
  p_initialize := fun p =>
    (fst (Expiring_initialize p), read_value (snd (Expiring_initialize p)));
  p_renew := fun p =>
    (fst (Expiring_renew p),
     match read_value (snd (Expiring_renew p)) with
     | inl e => inl e
     | inr d => inr (Extended (Some (a_data d)) (a_lease_duration d))
     end);
  p_invalidate := Expiring_invalidate;
  p_expires := fun _ => true;
  p_expiration_time := x_expiration_time;
  p_cached := x_data;
  p_invalidate_clears := fun _ => eq_refl
|}.

End Doubles.

(* ================================================================== *)
(** * A concrete deployment                                            *)
(* ================================================================== *)

Module Scenario.
Import TokenProvider.

(** What the attestation service answers, and its JSON text. *)
Definition attested : JS.value :=
  JS.Obj [ ("client_token", JS.Str "s.token");
           ("lease_duration", JS.Num 300);
           ("creation_time", JS.Num 0);
           ("expiration_time", JS.Num 1000) ].

Definition attested_json : string := default EmptyString (JS.stringify attested).

(** A configuration, with a [JSON.parse] that knows the one text above
    and a [getTime] that is the identity on integer time values. *)
Definition amb : ambient :=
  Ambient (JS.Num 8200) (JS.Str "vault.local") (JS.Bool true)
    (JS.Str "warden.local") (JS.Num 3000) (JS.Str "/v1/authenticate")
    (JS.Num 60) 200
    (fun body =>
       if String.eqb body attested_json then inr attested
       else inl (JS.Error_ "SyntaxError" "Unexpected token"))
    (fun v => match v with JS.Num n => JS.Num n | _ => JS.NaN end).

Definition metadata_ok (_ : options) (path : string) : JS.error + string :=
  if String.eqb path "/latest/dynamic/instance-identity/document" then inr "DOCUMENT"
  else if String.eqb path "/latest/dynamic/instance-identity/signature" then inr "SIGNATURE"
  else inr "PKCS7".

Definition renewed_lease : JS.value :=
  JS.Obj [ ("auth", JS.Obj [ ("lease_duration", JS.Num 300);
                             ("client_token", JS.Str "s.token") ]) ].

(** Every request is answered. *)
Definition healthy : world :=
  World metadata_ok
        (fun _ _ => HttpResponse 200 [attested_json] None)
        (fun _ _ _ => inr renewed_lease).

Definition ECONNRESET : JS.error := JS.Error_ "RequestError" "read ECONNRESET".
Definition forbidden : JS.error := JS.Error_ "StatusCodeError" "403 - permission denied".

(** The store cannot be reached. *)
Definition unreachable_store : world :=
  World metadata_ok
        (fun _ _ => HttpResponse 200 [attested_json] None)
        (fun _ _ _ => inl ECONNRESET).

(** The store refuses the renewal. *)
Definition refusing_store : world :=
  World metadata_ok
        (fun _ _ => HttpResponse 200 [attested_json] None)
        (fun _ _ _ => inl forbidden).

(** The attestation service is down. *)
Definition no_attestation : world :=
  World metadata_ok
        (fun _ _ => HttpError (JS.Error "connect ECONNREFUSED"))
        (fun _ _ _ => inl ECONNRESET).

Definition blank : t :=
  Make no_options (VaultClient JS.Undefined JS.Undefined)
       (WardenRequest EmptyString ∅ JS.Undefined JS.Undefined JS.Undefined)
       JS.Null JS.Null JS.Null JS.Null.

(** [new TokenProvider('default/token', 't')] *)
Definition fresh : t :=
  match constructor amb (JS.Str "default/token") (JS.Str "t") None with
  | inr self => self
  | inl _ => blank
  end.

(** The same provider once [initialize] has resolved. *)
Definition holding : t := after amb (Initialize healthy) fresh.

(** Options that name every connection property of both endpoints. *)
Definition custom : options :=
  Options JS.Undefined
    (Some (VaultOptions (JS.Str "http://store.example:8201") None
             (JS.Str "other.example") (JS.Num 1) (JS.Bool false)))
    (Some (WardenOptions (JS.Str "attest.example") (JS.Num 8443) (JS.Str "/custom"))).

End Scenario.

(* ================================================================== *)
(** * Managers at work                                                 *)
(* ================================================================== *)

Module Deployment.
Import LeaseManager Doubles.

(** The manager's state after a computation. *)
Definition state {P A : Type} (r : t P * list io * (JS.error + A)) : t P :=
  fst (fst r).

(** Options with no fixed delay and a renewal increment of five
    seconds, as the expiring-token test configures it. *)
Definition defaults : options := Options None 5 reaches_ceiling.

(** [new LeaseManager(new FailToRenewProvider())], initialized. *)
Definition failing : t unit := state (initialize (constructor tt defaults)).

(** [new LeaseManager(new ChangingTimeoutProvider())], then
    initialized. *)
Definition changing : t Doubles.ChangingTimeout :=
  constructor Doubles.ChangingTimeout_new defaults.
Definition changing_ready : t Doubles.ChangingTimeout := state (initialize changing).

(** [new LeaseManager(new ExpiringProvider())], initialized. *)
Definition expiring_ready : t Doubles.Expiring :=
  state (initialize (constructor (Doubles.Expiring_new "Mon Nov 02 2026 18:18:00 GMT+0000")
                       defaults)).

End Deployment.

(* ================================================================== *)
(** * Runs of the token provider, named                                *)
(* ================================================================== *)

Module Runs.
Import TokenProvider.

(** [v[k]] on a value that is neither [null] nor [undefined]. *)
Definition prop (v : JS.value) (k : string) : JS.value :=
  match v with
  | JS.Obj fs => JS.assoc k fs
  | _ => JS.Undefined
  end.

(** The text [_sendDocument] posts for a document and a PKCS7 value. *)
Definition attestation_body (doc pk : string) : string :=
  "{" +:+ ((JS.quote "document" +:+ ":" +:+ JS.quote doc) +:+ ","
           +:+ (JS.quote "signature" +:+ ":"
                +:+ JS.quote (pkcs7_envelope (JS.Str pk)))) +:+ "}".

(** The provider once [_post] has set the length header for a body. *)
Definition posting (self : t) (body : string) : t :=
  set_warden self
    (set_header (_warden self) "Content-Length"
       (JS.Num (Z.of_nat (String.length body)))).

(** The metadata requests of [_getDocument]. *)
Definition metadata_requests (self : t) : list io :=
  map (MetadataRequest (_metadata self)) METADATA_ENDPOINTS.

(** The requests of an acquisition that reaches the attestation
    service. *)
Definition acquisition (self : t) (body : string) : list io :=
  metadata_requests self ++ [HttpRequest (_warden (posting self body)) body].

(** The response text [_post] assembles. *)
Definition response_text (chunks : list string) (last : option string) : string :=
  fold_left String.append chunks EmptyString +:+ default EmptyString last.

(** The value object [initialize] caches for an attestation response. *)
Definition acquired_data (response : JS.value) : JS.value :=
  JS.Obj [ ("lease_id", prop response "client_token");
           ("lease_duration", prop response "lease_duration");
           ("data", JS.Obj [ ("token", prop response "client_token") ]) ].

(** The provider a resolved acquisition leaves. *)
Definition acquired_state (amb : ambient) (self : t) (body : string)
    (response : JS.value) : t :=
  Make (_metadata self)
       (VaultClient (vc_endpoint (_client self)) (prop response "client_token"))
       (_warden (posting self body))
       (prop response "client_token")
       (acquired_data response)
       (Date_getTime amb (prop response "creation_time"))
       (Date_getTime amb (prop response "expiration_time")).

(** The value object [renew] caches for a store response. *)
Definition renewed_data (response : JS.value) : JS.value :=
  JS.Obj [ ("lease_duration", prop (prop response "auth") "lease_duration");
           ("data", JS.Obj [ ("token", prop (prop response "auth") "client_token") ]) ].

(** The store call of [renew] and the log entry of its [catch]. *)
Definition store_call (amb : ambient) (self : t) : io :=
  TokenRenew (_client self) (token self) (VAULT_TOKEN_RENEW_INCREMENT amb).

Definition ignored (err : JS.error) : io :=
  Log "INFO" "An error was thrown but was ignored" "TokenProvider"
      JS.Undefined JS.Undefined err.

(** What identifies the services a provider talks to. *)
Definition connection (self : t)
    : options * JS.value * (string * JS.value * JS.value * JS.value) :=
  (_metadata self, vc_endpoint (_client self), endpoint (_warden self)).

(** The state and the outcome of a run. *)
Definition state {A : Type} (r : t * list io * (JS.error + A)) : t := fst (fst r).
Definition requests {A : Type} (r : t * list io * (JS.error + A)) : list io := snd (fst r).
Definition outcome {A : Type} (r : t * list io * (JS.error + A)) : JS.error + A := snd r.

End Runs.

(* ================================================================== *)
(** * Worlds that fail                                                 *)
(* ================================================================== *)

Module Faults.
Import TokenProvider.

(** A response without a token, and its JSON text. *)
Definition tokenless : JS.value := JS.Obj [ ("lease_duration", JS.Num 300) ].
Definition tokenless_json : string := default EmptyString (JS.stringify tokenless).

(** The configuration of [Scenario], with a [JSON.parse] that also
    knows [null] and the tokenless response. *)
Definition amb : ambient :=
  Ambient (JS.Num 8200) (JS.Str "vault.local") (JS.Bool false)
    (JS.Str "warden.local") (JS.Num 3000) (JS.Str "/v1/authenticate")
    (JS.Num 60) 200
    (fun body =>
       if String.eqb body Scenario.attested_json then inr Scenario.attested
       else if String.eqb body "null" then inr JS.Null
       else if String.eqb body tokenless_json then inr tokenless
       else inl (JS.Error_ "SyntaxError" "Unexpected token"))
    (fun v => match v with JS.Num n => JS.Num n | _ => JS.NaN end).

Definition ENOTFOUND : JS.error := JS.Error_ "Error" "getaddrinfo ENOTFOUND".

(** The signature endpoint of the metadata service fails. *)
Definition metadata_down (_ : options) (path : string) : JS.error + string :=
  if String.eqb path "/latest/dynamic/instance-identity/signature" then inl ENOTFOUND
  else inr "VALUE".

Definition answering (metadata : options -> string -> JS.error + string)
    (http : httpOutcome) (store : JS.error + JS.value) : world :=
  World metadata (fun _ _ => http) (fun _ _ _ => store).

Definition no_metadata : world :=
  answering metadata_down (HttpResponse 200 [Scenario.attested_json] None)
    (inr Scenario.renewed_lease).

(** The attestation service answers 503 in two chunks. *)
Definition overloaded : world :=
  answering Scenario.metadata_ok (HttpResponse 503 ["Service "; "Unavailable"] None)
    (inr Scenario.renewed_lease).

(** It answers 200 with a text that is not JSON. *)
Definition garbled : world :=
  answering Scenario.metadata_ok (HttpResponse 200 ["<html>"] None)
    (inr Scenario.renewed_lease).

(** It answers 200 with the JSON text [null]. *)
Definition null_body : world :=
  answering Scenario.metadata_ok (HttpResponse 200 ["nu"] (Some "ll"))
    (inr Scenario.renewed_lease).

(** It answers 200 with a response that carries no token. *)
Definition no_token : world :=
  answering Scenario.metadata_ok (HttpResponse 200 [tokenless_json] None)
    (inr Scenario.renewed_lease).

(** The store renews and hands out another token. *)
Definition rotated_lease : JS.value :=
  JS.Obj [ ("auth", JS.Obj [ ("lease_duration", JS.Num 600);
                             ("client_token", JS.Str "s.rotated") ]) ].
Definition rotating : world :=
  answering Scenario.metadata_ok (HttpResponse 200 [Scenario.attested_json] None)
    (inr rotated_lease).

(** The store answers without an [auth] member. *)
Definition malformed : world :=
  answering Scenario.metadata_ok (HttpResponse 200 [Scenario.attested_json] None)
    (inr (JS.Obj [ ("errors", JS.Obj []) ])).

(** [new TokenProvider('default/token', 't')] in this configuration,
    and the same provider once [initialize] has resolved. *)
Definition fresh : t :=
  match constructor amb (JS.Str "default/token") (JS.Str "t") None with
  | inr self => self
  | inl _ => Scenario.blank
  end.
Definition holding : t := after amb (Initialize Scenario.healthy) fresh.

End Faults.

(* ================================================================== *)
(** * More provider doubles of [test/lease-manager.js]                 *)
(* ================================================================== *)

Module Counting.
Import LeaseManager.

(** [class CountingInitializeProvider]: the state is [this.count], an
    integer a double holds exactly (beyond 2^53 the subtraction of the
    source no longer changes the number). *)
Record CountingInitialize : Type := CountingInitialize_new { count : Z }.

(** Its [initialize()] *)
Definition initialize (p : CountingInitialize)
    : CountingInitialize * (JS.error + acquired) :=
  if 1 <? count p
  then (CountingInitialize_new (count p - 1),
        inl (JS.Error ("Need " +:+ JS.dec (count p - 1) +:+ " more calls to initialize")))
  else (p, inr (Acquired Doubles.SECRET 1 None)).

(** Its [renew()], which resolves with [true]. *)
Definition renew (p : CountingInitialize) : CountingInitialize * (JS.error + JS.value) :=
  (p, inr (JS.Bool true)).

(** The provider after [k] calls of a method. *)
Definition calls {P R : Type} (f : P -> P * R) (k : nat) (p : P) : P :=
  Nat.iter k (fun p => fst (f p)) p.

(** The largest count from which every countdown is exact: 2^53. *)
Definition MAX_EXACT : Z := 9007199254740992.

(** Where a count that starts at [n] stands after [k] calls. *)
Definition countdown (n : Z) (k : nat) : Z :=
  if n <=? 1 then n else Z.max 1 (n - Z.of_nat k).

End Counting.

(* ================================================================== *)
(** * Generic providers to extend                                      *)
(* ================================================================== *)

Module Recording.
Import Providers.


(** The same, with a constructor that requires a path and a token that
    are neither [null] nor [undefined], as the constructor of
    [TokenProvider] does. *)
Definition strict : generic (JS.value * JS.value) JS.value :=
  Generic (JS.value * JS.value) JS.value
    (fun _ path token =>
       match TokenProvider.checkNotNull path "path argument is required" with
       | inl e => inl e
       | inr _ =>
           match TokenProvider.checkNotNull token "token argument is required" with
           | inl e => inl e
           | inr _ => inr (path, token)
           end
       end)
    {[ "path" := fun _ fl _ => (fl, fst fl) ]}
    None.

(** The same as [recorder], with a method [name] that returns the name
    of the receiver's class, as the log entry of [TokenProvider.renew]
    reads it. *)
Definition named : generic (JS.value * JS.value) JS.value :=
  Generic (JS.value * JS.value) JS.value
    (fun _ path token => inr (path, token))
    {[ "name" := fun n fl _ => (fl, JS.Str n) ]}
    None.

End Recording.

(* ================================================================== *)
(** * The requests of a provider's life                                *)
(* ================================================================== *)

Module History.
Import TokenProvider.

(** What a call asks of the outside world. *)
Definition asked (amb : ambient) (c : call) (self : t) : list io :=
  match c with
  | Initialize w => snd (fst (initialize amb w self))
  | Renew w => snd (fst (renew amb w self))
  | Invalidate => []
  end.

(** A provider a caller can hold, with everything it has asked since
    it was constructed. *)
Inductive history (amb : ambient) : t -> list io -> Prop :=
| history_new secret token options self :
    constructor amb secret token options = inr self ->
    history amb self []
| history_call c self tr :
    history amb self tr ->
    history amb (after amb c self) (tr ++ asked amb c self).

(** The headers the constructor sets. *)
Definition base_headers : gmap string JS.value :=
  {[ "Content-Type" := JS.Str "application/json" ]}.

(** The headers after the bodies posted so far. *)
Definition headers_after (bodies : list string) : gmap string JS.value :=
  match last bodies with
  | None => base_headers
  | Some body =>
      <[ "Content-Length" := JS.Num (Z.of_nat (String.length body)) ]> base_headers
  end.

End History.

(* ================================================================== *)
(** * Properties of the token provider                                 *)
(* ================================================================== *)

Module TokenProviderFacts.
Import TokenProvider.

Section Facts.
Variable amb : ambient.

Ltac run :=
  unfold initialize, renew, initialize_then, renew_then, renew_catch,
    _sendDocument, _post, _getDocument, invalidate,
    Promise.bind, Promise.catch, Promise.resolve, Promise.reject,
    Promise.lift, Promise.modify, Promise.request, Promise.this in *;
  cbn [fst snd] in *.

Lemma renew_uninitialized w self :
  JS.truthy (token self) = false ->
  renew amb w self = (self, [], inl not_initialized).
Proof. intros Ht. unfold renew. rewrite Ht. reflexivity. Qed.

Lemma renew_then_frame response self :
  let r := renew_then response self in
  token (fst (fst r)) = token self
  /\ creation_time (fst (fst r)) = creation_time self
  /\ expiration_time (fst (fst r)) = expiration_time self
  /\ _warden (fst (fst r)) = _warden self
  /\ (resolved r = false -> fst (fst r) = self).
Proof.
  run. destruct (JS.get response "auth") as [e|auth]; cbn; [tauto|].
  destruct (JS.get auth "lease_duration") as [e|ld]; cbn; [tauto|].
  destruct (JS.get auth "client_token") as [e|ct]; cbn; [tauto|].
  unfold resolved; cbn. repeat split; discriminate.
Qed.


(** [_post] leaves everything but the request headers alone, and a
    rejected or resolved exchange alike has sent exactly one request. *)
Lemma post_run w payload payloadStr self :
  JS.stringify payload = Some payloadStr ->
  let self' :=
    set_warden self
      (set_header (_warden self) "Content-Length"
         (JS.Num (Z.of_nat (String.length payloadStr)))) in
  exists r, _post amb w payload self = (self', [HttpRequest (_warden self') payloadStr], r).
Proof.
  intros Hs. run. rewrite Hs. cbn.
  destruct (http_request w _ payloadStr) as [e|code chunks last]; cbn; [eauto|].
  destruct (negb (code =? STATUS_CODES_OK amb)); cbn; [eauto|].
  destruct (JSON_parse amb _); cbn; eauto.
Qed.

Lemma stringify_document (doc sig : string) :
  JS.stringify (JS.Obj [ ("document", JS.Str doc); ("signature", JS.Str sig) ])
  = Some ("{" +:+ ((JS.quote "document" +:+ ":" +:+ JS.quote doc) +:+ ","
                   +:+ (JS.quote "signature" +:+ ":" +:+ JS.quote sig)) +:+ "}").
Proof. reflexivity. Qed.

(** The last [then] of [initialize] either throws on its first read,
    before any write, or runs to its end. *)
Lemma initialize_then_run response self :
  (JS.is_nullish response = true
   /\ exists e, initialize_then amb response self = (self, [], inl e))
  \/ (JS.is_nullish response = false
      /\ exists self' v,
           initialize_then amb response self = (self', [], inr v)
           /\ _warden self' = _warden self
           /\ _metadata self' = _metadata self).
Proof.
  run. destruct response; cbn; try (left; split; [reflexivity|eauto]);
    right; (split; [reflexivity|]); eauto 10.
Qed.

Lemma getDocument_run w self :
  _getDocument w self =
    (self,
     map (MetadataRequest (_metadata self)) METADATA_ENDPOINTS,
     Promise.all (map (metadata_request w (_metadata self)) METADATA_ENDPOINTS)).
Proof. reflexivity. Qed.

Lemma all_three {E A : Type} (x y z : E + A) (l : list A) :
  Promise.all [x; y; z] = inr l ->
  exists a b c, x = inr a /\ y = inr b /\ z = inr c /\ l = [a; b; c].
Proof.
  destruct x as [e|a], y as [e'|b], z as [e''|c]; cbn; intros Heq;
    try discriminate.
  injection Heq as <-. eauto 10.
Qed.

(** A fresh acquisition: what [initialize] does when nothing is
    cached. *)
Lemma initialize_fresh w self :
  JS.truthy (data self) = false ->
  let r := initialize amb w self in
  let self' := fst (fst r) in
  endpoint (_warden self') = endpoint (_warden self)
  /\ _metadata self' = _metadata self
  /\ (resolved r = false ->
        token self' = token self /\ data self' = data self
        /\ creation_time self' = creation_time self
        /\ expiration_time self' = expiration_time self
        /\ _client self' = _client self).
Proof.
  intros Hd. cbn zeta. unfold initialize. rewrite Hd.
  unfold Promise.bind. rewrite getDocument_run.
  destruct (Promise.all _) as [e|docs] eqn:Hall; cbn [fst snd].
  { repeat split; reflexivity. }
  apply all_three in Hall as (a & b & c & _ & _ & _ & ->).
  unfold _sendDocument. cbn [index lookup list_lookup from_option].
  destruct (post_run w _ _ self (stringify_document a (pkcs7_envelope (JS.Str c))))
    as [r Hr].
  rewrite Hr. destruct r as [e|response]; cbn [fst snd].
  { repeat split; reflexivity. }
  match goal with |- context [initialize_then amb response ?s] =>
    destruct (initialize_then_run response s)
      as [(_ & e & ->)|(_ & s' & v & -> & Hw & Hm)]
  end; cbn [fst snd].
  - repeat split; reflexivity.
  - unfold resolved; cbn [snd]. rewrite Hm.
    unfold endpoint. rewrite Hw. cbn.
    repeat split; discriminate.
Qed.

Lemma initialize_cached w self :
  JS.truthy (data self) = true ->
  initialize amb w self = (self, [], inr (data self)).
Proof. intros Hd. unfold initialize. rewrite Hd. reflexivity. Qed.

Lemma renew_frame w self :
  let self' := fst (fst (renew amb w self)) in
  token self' = token self
  /\ creation_time self' = creation_time self
  /\ expiration_time self' = expiration_time self
  /\ _warden self' = _warden self.
Proof.
  cbn zeta. unfold renew.
  destruct (negb (JS.truthy (token self))); [repeat split; reflexivity|].
  unfold Promise.catch, Promise.bind, Promise.request, Promise.lift.
  destruct (tokenRenew w _ _ _) as [e|response].
  - unfold renew_catch. destruct (String.eqb _ _); cbn; repeat split; reflexivity.
  - pose proof (renew_then_frame response self) as F. cbn zeta in F.
    destruct (renew_then response self) as [[s1 tr1] [e|v]]; cbn [fst snd] in *.
    + destruct F as (Ft & Fc & Fe & Fw & Fr).
      rewrite (Fr eq_refl).
      unfold renew_catch. destruct (String.eqb _ _); cbn; repeat split; reflexivity.
    + destruct F as (Ft & Fc & Fe & Fw & _). repeat split; assumption.
Qed.

(** C4. When the store call of [renew] on an initialized provider
    fails: a store-status error (name [StatusCodeError]) rejects the
    promise with that error; any other error is logged and the promise
    resolves with the cached value; in both cases the provider is left
    as it was. *)
Theorem renew_soft_and_hard_failure (w : world) (self : t) (err : JS.error) :
  JS.truthy (token self) = true ->
  tokenRenew w (_client self) (token self) (VAULT_TOKEN_RENEW_INCREMENT amb) = inl err ->
  let store_call :=
    TokenRenew (_client self) (token self) (VAULT_TOKEN_RENEW_INCREMENT amb) in
  (JS.name err = "StatusCodeError" ->
     renew amb w self = (self, [store_call], inl err))
  /\ (JS.name err <> "StatusCodeError" ->
        renew amb w self =
          (self,
           [store_call;
            Log "INFO" "An error was thrown but was ignored" "TokenProvider"
                JS.Undefined JS.Undefined err],
           inr (data self))).
Proof.
  intros Ht Hw. cbn zeta. unfold renew. rewrite Ht. cbn [negb].
  unfold Promise.catch, Promise.bind, Promise.request, Promise.lift.
  rewrite Hw. unfold renew_catch. split; intros Hn.
  - rewrite Hn. reflexivity.
  - destruct (String.eqb_spec (JS.name err) "StatusCodeError") as [E|_];
      [contradiction|reflexivity].
Qed.


Lemma constructor_fields secret tok options self :
  constructor amb secret tok options = inr self ->
  token self = JS.Null /\ data self = JS.Null
  /\ creation_time self = JS.Null /\ expiration_time self = JS.Null
  /\ method (_warden self) = "POST".
Proof.
  unfold constructor.
  destruct (checkNotNull secret _); [discriminate|].
  destruct (checkNotNull tok _); [discriminate|].
  intros [= <-]. cbn. destruct (opt_warden _); cbn; repeat split; reflexivity.
Qed.



Lemma uninitialized_token self : uninitialized amb self -> token self = JS.Null.
Proof.
  induction 1 as [secret tok options self Hc|c self _ IH Hrej].
  - apply (constructor_fields _ _ _ _ Hc).
  - destruct c as [w|w|]; cbn [after].
    + specialize (Hrej w eq_refl).
      destruct (JS.truthy (data self)) eqn:Hd.
      * rewrite (initialize_cached w self Hd) in Hrej. discriminate.
      * destruct (initialize_fresh w self Hd) as (_ & _ & F).
        destruct (F Hrej) as (-> & _). exact IH.
    + destruct (renew_frame w self) as (-> & _). exact IH.
    + exact IH.
Qed.

(** C5. On a provider on which no [initialize] has resolved, [renew]
    rejects with the not-initialized error, asks nothing of the outside
    world and leaves the provider as it was. *)
Theorem renew_before_initialize (w : world) (self : t) :
  uninitialized amb self ->
  renew amb w self = (self, [], inl not_initialized).
Proof.
  intros U. apply renew_uninitialized.
  rewrite (uninitialized_token self U). reflexivity.
Qed.



(** C8, as the code has it. Constructing a token provider fails when
    the secret or the token is null or undefined and succeeds
    otherwise; [SecretProvider] puts no such requirement on its path,
    which it hands to [GenericProvider] as the string [secret/]
    followed by the rendering of the path, never null. In a
    constructed token provider the attestation request path is always
    the configured one; hostname and port are the configured ones when
    no [warden] option is given, and a host or a port given in a
    [warden] option is the one used; the store client is one for the
    endpoint built from the configured TLS flag, host and port when no
    [vault] option is given, and with a [vault] option it is the
    injected [vault.client] if there is one, else a client for a given
    [vault.endpoint]. *)
Theorem constructor_connection_options
    (secret tok : JS.value) (options : option options) :
  (JS.is_nullish secret = true \/ JS.is_nullish tok = true ->
     exists e, constructor amb secret tok options = inl e)
  /\ (JS.is_nullish secret = false -> JS.is_nullish tok = false ->
       exists self,
         constructor amb secret tok options = inr self
         /\ path (_warden self) = DEFAULT_WARDEN_PATH amb
         /\ (opt_warden (default no_options options) = None ->
             hostname (_warden self) = DEFAULT_WARDEN_HOST amb
             /\ port (_warden self) = DEFAULT_WARDEN_PORT amb)
         /\ (forall o,
               opt_warden (default no_options options) = Some o ->
               (JS.is_nullish (wo_host o) = false -> hostname (_warden self) = wo_host o)
               /\ (JS.is_nullish (wo_port o) = false -> port (_warden self) = wo_port o))
         /\ (opt_vault (default no_options options) = None ->
             _client self = VaultClient (default_endpoint amb) tok)
         /\ (forall v,
               opt_vault (default no_options options) = Some v ->
               (forall c, vo_client v = Some c -> _client self = c)
               /\ (vo_client v = None -> JS.is_nullish (vo_endpoint v) = false ->
                   _client self = VaultClient (vo_endpoint v) tok)))
  /\ (forall (F R : Type) (g : Providers.generic F R) (path token : JS.value),
        JS.is_nullish (Providers.secret_path path) = false
        /\ Providers.new_SecretProvider g path token
           = match Providers.generic_constructor g "SecretProvider"
                     (Providers.secret_path path) token with
             | inl e => inl e
             | inr f => inr (Providers.Object (Providers.SecretProvider g) f)
             end).
Proof.
  unfold constructor, checkNotNull. split; [|split].
  - intros [Hs|Ht].
    + rewrite Hs. eauto.
    + rewrite Ht. destruct (JS.is_nullish secret); eauto.
  - intros -> ->. eexists. split; [reflexivity|].
    cbn [_warden _client path hostname port].
    destruct (opt_warden _) as [o|], (opt_vault _) as [v|]; cbn;
      repeat split; try discriminate.
    all: match goal with E : Some _ = Some _ |- _ => injection E as <- end.
    all: intros;
      repeat match goal with E : vo_client _ = _ |- _ => rewrite E; clear E end;
      reflexivity.
  - intros F R g path token. split; reflexivity.
Qed.

Lemma after_times c self :
  (forall w, c = Initialize w ->
     resolved (initialize amb w self) = false \/ JS.truthy (data self) = true) ->
  expiration_time (after amb c self) = expiration_time self
  /\ creation_time (after amb c self) = creation_time self.
Proof.
  intros Hc. destruct c as [w|w|]; cbn [after].
  - destruct (JS.truthy (data self)) eqn:Hd.
    + rewrite (initialize_cached w self Hd). split; reflexivity.
    + destruct (Hc w eq_refl) as [Hr|]; [|discriminate].
      destruct (initialize_fresh w self Hd) as (_ & _ & F).
      destruct (F Hr) as (_ & _ & -> & -> & _). split; reflexivity.
  - destruct (renew_frame w self) as (_ & -> & -> & _). split; reflexivity.
  - split; reflexivity.
Qed.

(** C9. [expiration_time] and [creation_time] are written only by an
    [initialize] that acquires afresh and resolves: a call of [renew]
    or [invalidate], and an [initialize] that is rejected or served
    from the cache, leave both as they were; so does any sequence of
    renewals and invalidations. *)
Theorem expiration_written_by_initialize_only (self : t) :
  (forall c,
     (forall w, c = Initialize w ->
        resolved (initialize amb w self) = false \/ JS.truthy (data self) = true) ->
     expiration_time (after amb c self) = expiration_time self
     /\ creation_time (after amb c self) = creation_time self)
  /\ (forall calls,
        forallb renewal_or_invalidation calls = true ->
        expiration_time (after_all amb calls self) = expiration_time self
        /\ creation_time (after_all amb calls self) = creation_time self).
Proof.
  split; [intros c; apply after_times|].
  intros calls. revert self.
  induction calls as [|c calls IH]; intros self Hall; [split; reflexivity|].
  cbn [forallb] in Hall. apply andb_prop in Hall as [Hc Hall].
  unfold after_all in *. cbn [fold_left].
  destruct (IH (after amb c self) Hall) as [-> ->].
  apply after_times. intros w ->. discriminate.
Qed.

End Facts.

(** A provider that has been initialized, whose store then fails with
    a network error: the renewal resolves with the cached value. *)
Lemma renew_soft_and_hard_failure_witness :
  JS.truthy (token Scenario.holding) = true
  /\ tokenRenew Scenario.unreachable_store (_client Scenario.holding)
       (token Scenario.holding) (VAULT_TOKEN_RENEW_INCREMENT Scenario.amb)
     = inl Scenario.ECONNRESET
  /\ JS.name Scenario.ECONNRESET <> "StatusCodeError"
  /\ renew Scenario.amb Scenario.unreachable_store Scenario.holding
     = (Scenario.holding,
        [ TokenRenew (_client Scenario.holding) (token Scenario.holding)
            (VAULT_TOKEN_RENEW_INCREMENT Scenario.amb);
          Log "INFO" "An error was thrown but was ignored" "TokenProvider"
              JS.Undefined JS.Undefined Scenario.ECONNRESET ],
        inr (data Scenario.holding)).
Proof.
  assert (Hn : JS.name Scenario.ECONNRESET <> "StatusCodeError")
    by (vm_compute; discriminate).
  split; [reflexivity|]. split; [reflexivity|]. split; [exact Hn|].
  exact (proj2 (renew_soft_and_hard_failure Scenario.amb Scenario.unreachable_store
                  Scenario.holding Scenario.ECONNRESET eq_refl eq_refl) Hn).
Defined.

(** A provider whose only [initialize] was rejected, the attestation
    service being down. *)
Lemma renew_before_initialize_witness :
  uninitialized Scenario.amb
    (after Scenario.amb (Initialize Scenario.no_attestation) Scenario.fresh)
  /\ renew Scenario.amb Scenario.healthy
       (after Scenario.amb (Initialize Scenario.no_attestation) Scenario.fresh)
     = (after Scenario.amb (Initialize Scenario.no_attestation) Scenario.fresh,
        [], inl not_initialized).
Proof.
  assert (U : uninitialized Scenario.amb
                (after Scenario.amb (Initialize Scenario.no_attestation) Scenario.fresh)).
  { apply uninitialized_call.
    - apply (uninitialized_new Scenario.amb (JS.Str "default/token") (JS.Str "t") None).
      reflexivity.
    - intros w [= <-]. reflexivity. }
  split; [exact U|].
  exact (renew_before_initialize Scenario.amb Scenario.healthy _ U).
Defined.



(** Construction with options that name every connection property. *)
Lemma constructor_connection_options_witness :
  (JS.is_nullish JS.Null = true \/ JS.is_nullish (JS.Str "t") = true)
  /\ (exists e, constructor Scenario.amb JS.Null (JS.Str "t") (Some Scenario.custom) = inl e)
  /\ JS.is_nullish (JS.Str "default/token") = false
  /\ JS.is_nullish (JS.Str "t") = false
  /\ exists self,
       constructor Scenario.amb (JS.Str "default/token") (JS.Str "t")
         (Some Scenario.custom) = inr self
       /\ path (_warden self) = JS.Str "/v1/authenticate"
       /\ hostname (_warden self) = JS.Str "attest.example"
       /\ port (_warden self) = JS.Num 8443
       /\ _client self = VaultClient (JS.Str "http://store.example:8201") (JS.Str "t").
Proof.
  split; [left; reflexivity|].
  split.
  - exact (proj1 (constructor_connection_options Scenario.amb JS.Null (JS.Str "t")
                    (Some Scenario.custom)) (or_introl eq_refl)).
  - split; [reflexivity|]. split; [reflexivity|].
    destruct (proj1 (proj2 (constructor_connection_options Scenario.amb
                              (JS.Str "default/token") (JS.Str "t")
                              (Some Scenario.custom))) eq_refl eq_refl)
      as (self & Hc & Hp & _ & Hw & _ & Hv).
    exists self. split; [exact Hc|]. split; [exact Hp|].
    destruct (Hw _ eq_refl) as (Hh & Hport).
    split; [exact (Hh eq_refl)|]. split; [exact (Hport eq_refl)|].
    exact (proj2 (Hv _ eq_refl) eq_refl eq_refl).
Defined.

(** C8, as stated, fails three times over: a [SecretProvider] is
    constructed with a null path even over a generic provider that
    requires a non-null one; a request path given in the options is
    not used; and a host, a port and a TLS flag given for the store do
    not make the endpoint, which is the one given as a whole. *)
Lemma constructor_overrides_counterexample :
  ~ (forall path token : JS.value,
       JS.is_nullish path = true ->
       exists e, Providers.new_SecretProvider Recording.strict path token = inl e)
  /\ ~ (forall (amb : ambient) (secret tok : JS.value) (o : options)
              (wo : wardenOptions) (self : t),
         constructor amb secret tok (Some o) = inr self ->
         opt_warden o = Some wo ->
         hostname (_warden self) = overridable (wo_host wo) (DEFAULT_WARDEN_HOST amb)
         /\ port (_warden self) = overridable (wo_port wo) (DEFAULT_WARDEN_PORT amb)
         /\ path (_warden self) = overridable (wo_path wo) (DEFAULT_WARDEN_PATH amb))
  /\ ~ (forall (amb : ambient) (secret tok : JS.value) (o : options)
              (vo : vaultOptions) (self : t),
         constructor amb secret tok (Some o) = inr self ->
         opt_vault o = Some vo ->
         vo_client vo = None ->
         vc_endpoint (_client self)
         = JS.Str ((if JS.truthy (overridable (vo_tls vo) (DEFAULT_VAULT_TLS amb))
                    then "https" else "http")
                   +:+ "://"
                   +:+ JS.to_string (overridable (vo_host vo) (DEFAULT_VAULT_HOST amb))
                   +:+ ":"
                   +:+ JS.to_string (overridable (vo_port vo) (DEFAULT_VAULT_PORT amb)))).
Proof.
  split; [|split]; intros claim.
  - destruct (claim JS.Null (JS.Str "t") eq_refl) as (e & He).
    vm_compute in He. discriminate He.
  - destruct (claim Scenario.amb (JS.Str "default/token") (JS.Str "t") Scenario.custom
                _ _ eq_refl eq_refl) as (_ & _ & Hpath).
    vm_compute in Hpath. discriminate Hpath.
  - specialize (claim Scenario.amb (JS.Str "default/token") (JS.Str "t") Scenario.custom
                  _ _ eq_refl eq_refl eq_refl).
    vm_compute in claim. discriminate claim.
Qed.

(** Renewals, soft failures and invalidations on an initialized
    provider, and a rejected [initialize] after them. *)
Lemma expiration_written_by_initialize_only_witness :
  (forall w, Initialize Scenario.no_attestation = Initialize w ->
     resolved (initialize Scenario.amb w (invalidate Scenario.holding)) = false
     \/ JS.truthy (data (invalidate Scenario.holding)) = true)
  /\ expiration_time
       (after Scenario.amb (Initialize Scenario.no_attestation)
          (invalidate Scenario.holding))
     = JS.Num 1000
  /\ forallb renewal_or_invalidation
       [Renew Scenario.healthy; Renew Scenario.unreachable_store; Invalidate;
        Renew Scenario.refusing_store] = true
  /\ expiration_time
       (after_all Scenario.amb
          [Renew Scenario.healthy; Renew Scenario.unreachable_store; Invalidate;
           Renew Scenario.refusing_store] Scenario.holding)
     = JS.Num 1000.
Proof.
  assert (H : forall w, Initialize Scenario.no_attestation = Initialize w ->
     resolved (initialize Scenario.amb w (invalidate Scenario.holding)) = false
     \/ JS.truthy (data (invalidate Scenario.holding)) = true).
  { intros w [= <-]. left. reflexivity. }
  split; [exact H|]. split.
  - exact (proj1 (proj1 (expiration_written_by_initialize_only Scenario.amb
                           (invalidate Scenario.holding)) _ H)).
  - split; [reflexivity|].
    exact (proj1 (proj2 (expiration_written_by_initialize_only Scenario.amb
                           Scenario.holding)
                    [Renew Scenario.healthy; Renew Scenario.unreachable_store;
                     Invalidate; Renew Scenario.refusing_store] eq_refl)).
Defined.

End TokenProviderFacts.

(* ================================================================== *)
(** * Properties of the static-secret provider                         *)
(* ================================================================== *)

Module SecretProviderFacts.
Import Providers.

Section Facts.
Context {F R : Type}.
Variable g : generic F R.




End Facts.

(** Where the receiver's class is looked at, the two are told apart:
    a method that returns [this.constructor.name] answers with the
    name of the class constructed. *)
Lemma named_tells_apart :
  behaviour (new_SecretProvider Recording.named (JS.Str "app/db") (JS.Str "t"))
    [("name", [])]
  = inr [Some (JS.Str "SecretProvider")]
  /\ behaviour (new_GenericProvider Recording.named (JS.Str "secret/app/db") (JS.Str "t"))
       [("name", [])]
     = inr [Some (JS.Str "GenericProvider")].
Proof. split; reflexivity. Qed.


End SecretProviderFacts.

(* ================================================================== *)
(** * Properties of the lease manager                                  *)
(* ================================================================== *)

Module LeaseManagerFacts.
Import LeaseManager.

Section Facts.
Context {P : Type} `{Provider P}.

Lemma clear_run (m : t P) :
  clear m = (set_timer m None None (handles m), cancelled m, inr tt).
Proof.
  unfold clear, cancelled, Promise.bind, Promise.this, Promise.request, Promise.modify.
  destruct (_timer m); reflexivity.
Qed.

Lemma arm_run (m : t P) :
  arm m =
    (set_timer m (Some (handles m)) (Some (renewal_delay m)) (S (handles m)),
     cancelled m ++ [SetTimeout (handles m) (renewal_delay m)],
     inr tt).
Proof.
  unfold arm, Promise.bind. rewrite clear_run.
  unfold Promise.this, Promise.request, Promise.modify. cbn.
  reflexivity.
Qed.

Ltac step :=
  unfold _renew, initialize, invalidate, call_renew, call_initialize, call_invalidate,
    Promise.bind, Promise.catch, Promise.this, Promise.request, Promise.modify,
    Promise.resolve, Promise.reject;
  cbn [fst snd].

(** C1. When a [READY] manager's renewal attempt is rejected by the
    Provider, the manager ends in [ERROR] with the rejection in
    [error], [data] and [lease_duration] as they were, and no timer
    handle or delay; a later renewal cycle on that manager changes
    nothing and asks nothing of the Provider. *)
Theorem renewal_failure_is_terminal (m : t P) (now : Z) (p' : P) (e : JS.error) :
  status m = READY ->
  expiring m now = false ->
  p_renew (provider m) = (p', inl e) ->
  exists m',
    _renew now m = (m', [CallRenew] ++ cancelled m ++ [Emit error_], inr tt)
    /\ status m' = ERROR
    /\ error m' = Some e
    /\ data m' = data m
    /\ lease_duration m' = lease_duration m
    /\ _timer m' = None
    /\ _timeout m' = None
    /\ forall now', _renew now' m' = (m', [], inr tt).
Proof.
  intros Hs He Hr. step. rewrite Hs, He. cbn [provider]. rewrite Hr.
  cbn [fst snd]. rewrite clear_run. cbn [fst snd].
  eexists. split; [reflexivity|].
  cbn. repeat split.
Qed.


(** C2. The renewal cycle of a manager whose Provider expires and
    whose ceiling check holds (the cycle of section 4.1, which runs in
    any status but [ERROR], where a call is no renewal cycle but a
    no-op) does not call the Provider's [renew]: it empties [data],
    sets [lease_duration] to [0], empties [error], cancels and discards
    the timer, becomes [PENDING], calls the Provider's [invalidate],
    which clears the Provider's cached value, and emits [invalidate]. *)
Theorem expiring_lease_is_invalidated (m : t P) (now : Z) :
  status m <> ERROR ->
  expires m = true ->
  ceiling (opts m) now (increment (opts m)) (p_expiration_time (provider m)) = true ->
  exists m',
    _renew now m = (m', cancelled m ++ [CallInvalidate; Emit invalidate_], inr tt)
    /\ ~ In CallRenew (cancelled m ++ [CallInvalidate; Emit invalidate_])
    /\ data m' = None
    /\ lease_duration m' = 0
    /\ error m' = None
    /\ _timer m' = None
    /\ _timeout m' = None
    /\ status m' = PENDING
    /\ provider m' = p_invalidate (provider m)
    /\ p_cached (provider m') = None.
Proof.
  intros Hs He Hc.
  assert (Hx : expiring m now = true) by (unfold expiring; now rewrite He, Hc).
  unfold _renew, Promise.bind at 1, Promise.this. cbn [fst snd]. rewrite Hx.
  assert (Hinv : invalidate m
    = (set_provider
            (set_status
               (set_timer (set_error (set_lease_duration (set_data m None) 0) None)
                  None None (handles m)) PENDING)
            (p_invalidate (provider m)),
       cancelled m ++ [CallInvalidate; Emit invalidate_], inr tt)).
  { step. rewrite clear_run. reflexivity. }
  exists (set_provider
            (set_status
               (set_timer (set_error (set_lease_duration (set_data m None) 0) None)
                  None None (handles m)) PENDING)
            (p_invalidate (provider m))).
  split.
  { destruct (status m); [| |contradiction]; rewrite Hinv; reflexivity. }
  split.
  { unfold cancelled. destruct (_timer m); cbn; intros Hin;
      repeat (destruct Hin as [Hin|Hin]; [discriminate|]); exact Hin. }
  cbn. repeat split. apply p_invalidate_clears.
Qed.

(** C3. With no delay fixed in the options, a successful
    [initialize] of a manager whose Provider does not report
    [renewable: false], and a successful renewal, each cancel the timer
    the manager holds and then arm a new one whose delay is the floor of
    half the lease duration the Provider just reported, in
    milliseconds; [lease_duration] is that reported value. *)
Theorem renewal_timer_is_half_lease (m : t P) :
  delay (opts m) = None ->
  (forall p' r,
     status m <> READY ->
     p_initialize (provider m) = (p', inr r) ->
     a_renewable r <> Some false ->
     exists m',
       initialize m
       = (m',
          [CallInitialize; Emit ready] ++ cancelled m
          ++ [SetTimeout (handles m) (a_lease_duration r / 2 * 1000)],
          inr (Some (a_data r)))
       /\ lease_duration m' = a_lease_duration r
       /\ _timeout m' = Some (a_lease_duration r / 2 * 1000)
       /\ _timer m' = Some (handles m))
  /\ (forall now p' r,
        status m <> ERROR ->
        expiring m now = false ->
        p_renew (provider m) = (p', inr r) ->
        exists m',
          _renew now m
          = (m',
             [CallRenew; Emit renewed] ++ cancelled m
             ++ [SetTimeout (handles m) (e_lease_duration r / 2 * 1000)],
             inr tt)
          /\ lease_duration m' = e_lease_duration r
          /\ _timeout m' = Some (e_lease_duration r / 2 * 1000)
          /\ _timer m' = Some (handles m)).
Proof.
  intros Hd. split.
  - intros p' r Hs Hi Hr.
    assert (Hren : match a_renewable r with Some false => false | _ => true end = true).
    { destruct (a_renewable r) as [[|]|]; [reflexivity|contradiction|reflexivity]. }
    unfold initialize, Promise.bind at 1, Promise.this. cbn [fst snd].
    destruct (status m) eqn:Hst; [|contradiction|];
      step; cbn [provider]; rewrite Hi; cbn [fst snd];
      cbn [renewable set_status set_error set_renewable]; rewrite Hren;
      rewrite arm_run; unfold renewal_delay, cancelled; cbn; rewrite Hd, ?app_nil_r;
      (eexists; split; [reflexivity|]); cbn; repeat split.
  - intros now p' r Hs He Hr.
    unfold _renew, Promise.bind at 1, Promise.this. cbn [fst snd]. rewrite He.
    destruct (status m) eqn:Hst; [| |contradiction];
      step; cbn [provider]; rewrite Hr; cbn [fst snd];
      rewrite arm_run; unfold renewal_delay, cancelled; cbn; rewrite Hd, ?app_nil_r;
      (eexists; split; [reflexivity|]); cbn; repeat split.
Qed.

End Facts.

Import Doubles.

(** The manager of the failing-renewal tests: initialized over
    [FailToRenewProvider], then its renewal cycle runs. *)
Lemma renewal_failure_is_terminal_witness :
  status Deployment.failing = READY
  /\ expiring Deployment.failing 0 = false
  /\ p_renew (provider Deployment.failing) = (tt, inl (JS.Error "Failed to renew."))
  /\ exists m',
       _renew 0 Deployment.failing
       = (m', [CallRenew] ++ cancelled Deployment.failing ++ [Emit error_], inr tt)
       /\ status m' = ERROR
       /\ error m' = Some (JS.Error "Failed to renew.")
       /\ data m' = data Deployment.failing
       /\ lease_duration m' = lease_duration Deployment.failing
       /\ _timer m' = None
       /\ _timeout m' = None
       /\ forall now', _renew now' m' = (m', [], inr tt).
Proof.
  split; [reflexivity|]. split; [reflexivity|]. split; [reflexivity|].
  exact (renewal_failure_is_terminal Deployment.failing 0 tt
           (JS.Error "Failed to renew.") eq_refl eq_refl eq_refl).
Defined.

(** The manager of the expiring-token test: initialized over
    [ExpiringProvider], with a renewal increment of five. *)
Lemma expiring_lease_is_invalidated_witness :
  status Deployment.expiring_ready <> ERROR
  /\ expires Deployment.expiring_ready = true
  /\ ceiling (opts Deployment.expiring_ready) 0
       (increment (opts Deployment.expiring_ready))
       (p_expiration_time (provider Deployment.expiring_ready)) = true
  /\ exists m',
       _renew 0 Deployment.expiring_ready
       = (m', cancelled Deployment.expiring_ready ++ [CallInvalidate; Emit invalidate_],
          inr tt)
       /\ ~ In CallRenew
             (cancelled Deployment.expiring_ready ++ [CallInvalidate; Emit invalidate_])
       /\ data m' = None
       /\ lease_duration m' = 0
       /\ error m' = None
       /\ _timer m' = None
       /\ _timeout m' = None
       /\ status m' = PENDING
       /\ provider m' = p_invalidate (provider Deployment.expiring_ready)
       /\ p_cached (provider m') = None.
Proof.
  assert (Hs : status Deployment.expiring_ready <> ERROR) by (vm_compute; discriminate).
  split; [exact Hs|]. split; [reflexivity|]. split; [reflexivity|].
  exact (expiring_lease_is_invalidated Deployment.expiring_ready 0 Hs eq_refl eq_refl).
Defined.

(** The manager of the timer-change test, over
    [ChangingTimeoutProvider]: initialized with a lease of one second,
    then renewed with a lease of two. *)
Lemma renewal_timer_is_half_lease_witness :
  delay (opts Deployment.changing) = None
  /\ status Deployment.changing <> READY
  /\ p_initialize (provider Deployment.changing)
     = (ChangingTimeout_new, inr (Acquired SECRET 1 None))
  /\ a_renewable (Acquired SECRET 1 None) <> Some false
  /\ (exists m',
        initialize Deployment.changing
        = (m', [CallInitialize; Emit ready; SetTimeout 0 0], inr (Some SECRET))
        /\ lease_duration m' = 1 /\ _timeout m' = Some 0 /\ _timer m' = Some 0%nat)
  /\ delay (opts Deployment.changing_ready) = None
  /\ status Deployment.changing_ready <> ERROR
  /\ expiring Deployment.changing_ready 0 = false
  /\ p_renew (provider Deployment.changing_ready)
     = (ChangingTimeout_new' true, inr (Extended (Some SECRET) 2))
  /\ (exists m',
        _renew 0 Deployment.changing_ready
        = (m', [CallRenew; Emit LeaseManager.renewed; ClearTimeout 0; SetTimeout 1 1000],
           inr tt)
        /\ lease_duration m' = 2 /\ _timeout m' = Some 1000 /\ _timer m' = Some 1%nat).
Proof.
  assert (H1 : status Deployment.changing <> READY) by (vm_compute; discriminate).
  assert (H2 : a_renewable (Acquired SECRET 1 None) <> Some false)
    by (vm_compute; discriminate).
  assert (H3 : status Deployment.changing_ready <> ERROR) by (vm_compute; discriminate).
  split; [reflexivity|]. split; [exact H1|]. split; [reflexivity|]. split; [exact H2|].
  split.
  { exact (proj1 (renewal_timer_is_half_lease Deployment.changing eq_refl)
             ChangingTimeout_new (Acquired SECRET 1 None) H1 eq_refl H2). }
  split; [reflexivity|]. split; [exact H3|]. split; [reflexivity|]. split; [reflexivity|].
  exact (proj2 (renewal_timer_is_half_lease Deployment.changing_ready eq_refl)
           0 (ChangingTimeout_new' true) (Extended (Some SECRET) 2) H3 eq_refl eq_refl).
Defined.

End LeaseManagerFacts.

(* ================================================================== *)
(** * Runs of the token provider                                       *)
(* ================================================================== *)

Module TokenProviderRuns.
Import TokenProvider Runs.

Section Facts.
Variable amb : ambient.

Lemma get_prop (v : JS.value) (k : string) :
  JS.is_nullish v = false -> JS.get v k = inr (prop v k).
Proof. destruct v; cbn; intros E; try discriminate; reflexivity. Qed.

Lemma get_nullish (v : JS.value) (k : string) :
  JS.is_nullish v = true ->
  exists e, JS.get v k = inl e /\ JS.name e = "TypeError".
Proof. destruct v; cbn; intros E; try discriminate; eauto. Qed.

Lemma initialize_then_resolved (response : JS.value) (self : t) :
  JS.is_nullish response = false ->
  initialize_then amb response self
  = (Make (_metadata self)
          (VaultClient (vc_endpoint (_client self)) (prop response "client_token"))
          (_warden self)
          (prop response "client_token")
          (acquired_data response)
          (Date_getTime amb (prop response "creation_time"))
          (Date_getTime amb (prop response "expiration_time")),
     [], inr (acquired_data response)).
Proof.
  intros Hn. unfold initialize_then, Promise.bind, Promise.lift, Promise.modify,
    Promise.this, Promise.resolve.
  rewrite !(get_prop response _ Hn). reflexivity.
Qed.

Lemma initialize_then_rejected (response : JS.value) (self : t) :
  JS.is_nullish response = true ->
  exists e, initialize_then amb response self = (self, [], inl e)
            /\ JS.name e = "TypeError".
Proof.
  intros Hn. unfold initialize_then, Promise.bind, Promise.lift.
  destruct (get_nullish response "client_token" Hn) as (e & -> & He). eauto.
Qed.

(** A fresh acquisition whose metadata requests are answered, by what
    the attestation service answers. *)
Lemma acquisition_run (w : world) (self : t) (doc sig pk : string) :
  JS.truthy (data self) = false ->
  map (metadata_request w (_metadata self)) METADATA_ENDPOINTS
  = [inr doc; inr sig; inr pk] ->
  let body := attestation_body doc pk in
  exists r,
    initialize amb w self = (state r, acquisition self body, outcome r)
    /\ r = match http_request w (_warden (posting self body)) body with
           | HttpError err => (posting self body, [], inl err)
           | HttpResponse statusCode chunks last =>
               if negb (statusCode =? STATUS_CODES_OK amb)
               then (posting self body, [],
                     inl (JS.Error (JS.dec statusCode +:+ ": "
                                    +:+ response_text chunks last)))
               else
                 match JSON_parse amb (response_text chunks last) with
                 | inl ex => (posting self body, [], inl ex)
                 | inr response => initialize_then amb response (posting self body)
                 end
           end.
Proof.
  intros Hd Hm. cbn zeta. eexists. split; [|reflexivity].
  unfold initialize. rewrite Hd.
  unfold Promise.bind. rewrite TokenProviderFacts.getDocument_run, Hm.
  cbn [Promise.all fst snd].
  unfold _sendDocument. cbn [index lookup list_lookup from_option].
  unfold _post. rewrite TokenProviderFacts.stringify_document.
  fold (attestation_body doc pk).
  unfold Promise.bind, Promise.modify, Promise.this, Promise.request,
    Promise.reject, Promise.resolve.
  cbn [fst snd]. fold (posting self (attestation_body doc pk)).
  unfold acquisition, metadata_requests, state, outcome, response_text.
  destruct (http_request w _ _) as [err|code chunks last]; cbn [fst snd];
    [reflexivity|].
  destruct (negb (code =? STATUS_CODES_OK amb)); cbn [fst snd]; [reflexivity|].
  destruct (JSON_parse amb _) as [ex|response]; cbn [fst snd]; [reflexivity|].
  destruct (initialize_then amb response _) as [[s' tr'] r'] eqn:E.
  destruct (JS.is_nullish response) eqn:Hn.
  - destruct (initialize_then_rejected response (posting self (attestation_body doc pk)) Hn)
      as (e & E' & _).
    rewrite E' in E. injection E as <- <- <-. reflexivity.
  - rewrite (initialize_then_resolved response _ Hn) in E.
    injection E as <- <- <-. reflexivity.
Qed.


Lemma initialize_then_get (response : JS.value) (self : t) :
  initialize_then amb response self
  = match JS.get response "client_token" with
    | inl e => (self, [], inl e)
    | inr _ =>
        (Make (_metadata self)
              (VaultClient (vc_endpoint (_client self)) (prop response "client_token"))
              (_warden self)
              (prop response "client_token")
              (acquired_data response)
              (Date_getTime amb (prop response "creation_time"))
              (Date_getTime amb (prop response "expiration_time")),
         [], inr (acquired_data response))
    end.
Proof.
  destruct (JS.is_nullish response) eqn:Hn.
  - destruct response; try discriminate Hn; reflexivity.
  - rewrite (initialize_then_resolved response self Hn), (get_prop response _ Hn).
    reflexivity.
Qed.

(** C6. A provider that holds a cached value resolves [initialize]
    with it and asks nothing of the outside world. After [invalidate],
    the next [initialize] takes the full acquisition path instead: it
    makes the three metadata requests; if one fails it rejects there;
    if all are answered it posts the document and the enveloped PKCS7
    value to the attestation service and, by the answer, rejects or
    resolves with the value object built from the response, which it
    caches together with the new token and times. *)
Theorem initialize_cached_then_invalidated (w : world) (self : t) :
  (JS.truthy (data self) = true ->
     initialize amb w self = (self, [], inr (data self)))
  /\ (forall e,
        Promise.all (map (metadata_request w (_metadata self)) METADATA_ENDPOINTS)
        = inl e ->
        initialize amb w (invalidate self)
        = (invalidate self, metadata_requests self, inl e))
  /\ (forall doc sig pk,
        map (metadata_request w (_metadata self)) METADATA_ENDPOINTS
        = [inr doc; inr sig; inr pk] ->
        let body := attestation_body doc pk in
        let sent := posting (invalidate self) body in
        let asked := acquisition (invalidate self) body in
        initialize amb w (invalidate self)
        = match http_request w (_warden sent) body with
          | HttpError err => (sent, asked, inl err)
          | HttpResponse statusCode chunks last =>
              if negb (statusCode =? STATUS_CODES_OK amb)
              then (sent, asked,
                    inl (JS.Error (JS.dec statusCode +:+ ": "
                                   +:+ response_text chunks last)))
              else
                match JSON_parse amb (response_text chunks last) with
                | inl ex => (sent, asked, inl ex)
                | inr response =>
                    match JS.get response "client_token" with
                    | inl e => (sent, asked, inl e)
                    | inr _ =>
                        (acquired_state amb (invalidate self) body response, asked,
                         inr (acquired_data response))
                    end
                end
          end).
Proof.
  split; [apply TokenProviderFacts.initialize_cached|]. split.
  - intros e Hall. unfold initialize, invalidate. cbn [data set_data JS.truthy].
    unfold Promise.bind. rewrite TokenProviderFacts.getDocument_run.
    cbn [_metadata set_data]. rewrite Hall. reflexivity.
  - intros doc sig pk Hm. cbn zeta.
    destruct (acquisition_run w (invalidate self) doc sig pk eq_refl Hm) as (r & -> & ->).
    destruct (http_request w _ _) as [err|code chunks last]; [reflexivity|].
    destruct (negb (code =? STATUS_CODES_OK amb)); [reflexivity|].
    destruct (JSON_parse amb _) as [ex|response]; [reflexivity|].
    rewrite initialize_then_get.
    destruct (JS.get response "client_token"); reflexivity.
Qed.

Lemma all_rejects {E A : Type} (l : list (E + A)) (e0 : E) :
  In (inl e0) l -> exists e, Promise.all l = inl e /\ In (inl e) l.
Proof.
  induction l as [|[e|a] l IH]; cbn; intros Hin; [contradiction| |].
  - eauto.
  - destruct Hin as [Hin|Hin]; [discriminate|].
    destruct (IH Hin) as (e & -> & He). eauto.
Qed.

(** X1. When one of the three metadata requests fails, a fresh
    [initialize] rejects with the error of a failed request, has made
    the three metadata requests and no request to the attestation
    service, and leaves the provider exactly as it was. *)
Theorem initialize_without_metadata
    (w : world) (self : t) (path : string) (e0 : JS.error) :
  JS.truthy (data self) = false ->
  In path METADATA_ENDPOINTS ->
  metadata_request w (_metadata self) path = inl e0 ->
  exists e path',
    initialize amb w self = (self, metadata_requests self, inl e)
    /\ In path' METADATA_ENDPOINTS
    /\ metadata_request w (_metadata self) path' = inl e.
Proof.
  intros Hd Hin He0.
  assert (Hl : In (inl e0) (map (metadata_request w (_metadata self)) METADATA_ENDPOINTS)).
  { apply in_map_iff. eauto. }
  destruct (all_rejects _ _ Hl) as (e & Hall & He).
  apply in_map_iff in He as (path' & He & Hin').
  exists e, path'. split; [|split; assumption].
  unfold initialize. rewrite Hd. unfold Promise.bind.
  rewrite TokenProviderFacts.getDocument_run, Hall. reflexivity.
Qed.

(** X2. When the metadata requests are answered and the exchange with
    the attestation service fails, a fresh [initialize] rejects: with
    the transport error; on a status other than OK with an [Error]
    whose message is the status code, a colon and the response text;
    on a text that is not JSON with the exception of [JSON.parse]; on
    the JSON text [null] with a [TypeError]. In each case one request
    was posted and the provider differs from before only by the
    [Content-Length] header of that request. *)
Theorem initialize_attestation_failure
    (w : world) (self : t) (doc sig pk : string) :
  JS.truthy (data self) = false ->
  map (metadata_request w (_metadata self)) METADATA_ENDPOINTS
  = [inr doc; inr sig; inr pk] ->
  let body := attestation_body doc pk in
  let sent := posting self body in
  (forall err,
     http_request w (_warden sent) body = HttpError err ->
     initialize amb w self = (sent, acquisition self body, inl err))
  /\ (forall code chunks last,
        http_request w (_warden sent) body = HttpResponse code chunks last ->
        code <> STATUS_CODES_OK amb ->
        initialize amb w self
        = (sent, acquisition self body,
           inl (JS.Error (JS.dec code +:+ ": " +:+ response_text chunks last))))
  /\ (forall chunks last ex,
        http_request w (_warden sent) body
        = HttpResponse (STATUS_CODES_OK amb) chunks last ->
        JSON_parse amb (response_text chunks last) = inl ex ->
        initialize amb w self = (sent, acquisition self body, inl ex))
  /\ (forall chunks last response,
        http_request w (_warden sent) body
        = HttpResponse (STATUS_CODES_OK amb) chunks last ->
        JSON_parse amb (response_text chunks last) = inr response ->
        JS.is_nullish response = true ->
        exists e,
          initialize amb w self = (sent, acquisition self body, inl e)
          /\ JS.name e = "TypeError").
Proof.
  intros Hd Hm. cbn zeta.
  destruct (acquisition_run w self doc sig pk Hd Hm) as (r & -> & ->).
  repeat split.
  - intros err ->. reflexivity.
  - intros code chunks last -> Hc.
    apply Z.eqb_neq in Hc. rewrite Hc. reflexivity.
  - intros chunks last ex -> Hp. rewrite Z.eqb_refl, Hp. reflexivity.
  - intros chunks last response -> Hp Hn. rewrite Z.eqb_refl, Hp. cbn [negb].
    destruct (initialize_then_rejected response (posting self (attestation_body doc pk)) Hn)
      as (e & -> & He).
    exists e. split; [reflexivity|exact He].
Qed.

Lemma acquisition_resolves
    (w : world) (self : t) (doc sig pk : string)
    (chunks : list string) (last : option string) (response : JS.value) :
  JS.truthy (data self) = false ->
  map (metadata_request w (_metadata self)) METADATA_ENDPOINTS
  = [inr doc; inr sig; inr pk] ->
  http_request w (_warden (posting self (attestation_body doc pk)))
    (attestation_body doc pk)
  = HttpResponse (STATUS_CODES_OK amb) chunks last ->
  JSON_parse amb (response_text chunks last) = inr response ->
  JS.is_nullish response = false ->
  initialize amb w self
  = (acquired_state amb self (attestation_body doc pk) response,
     acquisition self (attestation_body doc pk),
     inr (acquired_data response)).
Proof.
  intros Hd Hm Hh Hp Hn.
  destruct (acquisition_run w self doc sig pk Hd Hm) as (r & -> & ->).
  cbn zeta. rewrite Hh, Z.eqb_refl, Hp. cbn [negb].
  rewrite (initialize_then_resolved response _ Hn). reflexivity.
Qed.

(** X3. When the metadata requests are answered and the attestation
    service answers OK with a JSON value other than [null], a fresh
    [initialize] resolves with [{lease_id, lease_duration, data:
    {token}}] built from the response, caches that value, takes the
    response's [client_token] as its token and as the store client's
    token, and takes [creation_time] and [expiration_time] through
    [getTime]; the store client's endpoint and the metadata client are
    kept. *)
Theorem initialize_acquires
    (w : world) (self : t) (doc sig pk : string)
    (chunks : list string) (last : option string) (response : JS.value) :
  JS.truthy (data self) = false ->
  map (metadata_request w (_metadata self)) METADATA_ENDPOINTS
  = [inr doc; inr sig; inr pk] ->
  http_request w (_warden (posting self (attestation_body doc pk)))
    (attestation_body doc pk)
  = HttpResponse (STATUS_CODES_OK amb) chunks last ->
  JSON_parse amb (response_text chunks last) = inr response ->
  JS.is_nullish response = false ->
  initialize amb w self
  = (acquired_state amb self (attestation_body doc pk) response,
     acquisition self (attestation_body doc pk),
     inr (acquired_data response)).
Proof. apply acquisition_resolves. Qed.

(** X4. A provider that acquired a response whose [client_token] is
    missing or otherwise falsy holds a cached value and no token:
    every later [renew] rejects as not initialized without calling the
    store, and every later [initialize] resolves with the cached value
    without a new acquisition. *)
Theorem tokenless_acquisition_sticks
    (w : world) (self : t) (doc sig pk : string)
    (chunks : list string) (last : option string) (response : JS.value) :
  JS.truthy (data self) = false ->
  map (metadata_request w (_metadata self)) METADATA_ENDPOINTS
  = [inr doc; inr sig; inr pk] ->
  http_request w (_warden (posting self (attestation_body doc pk)))
    (attestation_body doc pk)
  = HttpResponse (STATUS_CODES_OK amb) chunks last ->
  JSON_parse amb (response_text chunks last) = inr response ->
  JS.is_nullish response = false ->
  JS.truthy (prop response "client_token") = false ->
  let held := state (initialize amb w self) in
  forall w',
    renew amb w' held = (held, [], inl not_initialized)
    /\ initialize amb w' held = (held, [], inr (acquired_data response)).
Proof.
  intros Hd Hm Hh Hp Hn Ht. cbn zeta.
  rewrite (acquisition_resolves w self doc sig pk chunks last response Hd Hm Hh Hp Hn).
  intros w'. split.
  - apply TokenProviderFacts.renew_uninitialized. exact Ht.
  - apply (TokenProviderFacts.initialize_cached amb w'). reflexivity.
Qed.

(** What [initialize] can leave behind. *)
Lemma initialize_cases (w : world) (self : t) :
  let r := initialize amb w self in
  (state r = self /\ (resolved r = true -> outcome r = inr (data self)
                                          /\ JS.truthy (data self) = true))
  \/ (exists body, state r = posting self body /\ resolved r = false)
  \/ (exists body response,
        state r = acquired_state amb self body response
        /\ outcome r = inr (acquired_data response)).
Proof.
  cbn zeta. destruct (JS.truthy (data self)) eqn:Hd.
  { rewrite (TokenProviderFacts.initialize_cached amb w self Hd). left.
    split; [reflexivity|]. intros _. split; reflexivity. }
  destruct (Promise.all (map (metadata_request w (_metadata self)) METADATA_ENDPOINTS))
    as [e|docs] eqn:Hall.
  { left. unfold initialize. rewrite Hd. unfold Promise.bind.
    rewrite TokenProviderFacts.getDocument_run, Hall.
    split; [reflexivity|]. discriminate. }
  assert (Hm : exists a b c,
             map (metadata_request w (_metadata self)) METADATA_ENDPOINTS
             = [inr a; inr b; inr c]).
  { unfold METADATA_ENDPOINTS in *. cbn [map] in *.
    apply TokenProviderFacts.all_three in Hall as (a & b & c & -> & -> & -> & _).
    eauto. }
  destruct Hm as (a & b & c & Hm).
  destruct (acquisition_run w self a b c Hd Hm) as (r & -> & ->).
  cbn zeta. unfold state, outcome, resolved. cbn [fst snd].
  destruct (http_request w _ _) as [err|code chunks last]; cbn [fst snd].
  { right. left. eauto. }
  destruct (negb (code =? STATUS_CODES_OK amb)); cbn [fst snd].
  { right. left. eauto. }
  destruct (JSON_parse amb _) as [ex|response]; cbn [fst snd].
  { right. left. eauto. }
  destruct (JS.is_nullish response) eqn:Hn.
  - destruct (initialize_then_rejected response (posting self (attestation_body a c)) Hn)
      as (e & -> & _).
    right. left. cbn. eauto.
  - rewrite (initialize_then_resolved response _ Hn). right. right.
    exists (attestation_body a c), response. split; reflexivity.
Qed.

(** X5. Once an [initialize] has resolved, every further
    [initialize], whatever the outside world is like, resolves with
    the same value, makes no request and leaves the provider as it
    is. *)
Theorem initialize_is_idempotent (w w' : world) (self : t) :
  resolved (initialize amb w self) = true ->
  initialize amb w' (state (initialize amb w self))
  = (state (initialize amb w self), [], outcome (initialize amb w self)).
Proof.
  intros Hr.
  destruct (initialize_cases w self) as [(Hs & Hc)|[(body & _ & Hf)|(body & resp & Hs & Ho)]].
  - destruct (Hc Hr) as (Ho & Hd). rewrite Hs, Ho.
    apply TokenProviderFacts.initialize_cached. exact Hd.
  - rewrite Hr in Hf. discriminate.
  - rewrite Hs, Ho.
    apply (TokenProviderFacts.initialize_cached amb w'). reflexivity.
Qed.

(** [renew] on a provider that holds a token, by what the store
    answers. *)
Lemma renew_run (w : world) (self : t) :
  JS.truthy (token self) = true ->
  exists e,
    JS.name e = "TypeError"
    /\ renew amb w self
       = match tokenRenew w (_client self) (token self) (VAULT_TOKEN_RENEW_INCREMENT amb) with
         | inl err =>
             if String.eqb (JS.name err) "StatusCodeError"
             then (self, [store_call amb self], inl err)
             else (self, [store_call amb self; ignored err], inr (data self))
         | inr response =>
             if JS.is_nullish response || JS.is_nullish (prop response "auth")
             then (self, [store_call amb self; ignored e], inr (data self))
             else (set_data self (renewed_data response), [store_call amb self],
                   inr (renewed_data response))
         end.
Proof.
  intros Ht. unfold renew. rewrite Ht. cbn [negb].
  unfold Promise.catch, Promise.bind, Promise.request, Promise.lift, store_call.
  destruct (tokenRenew w _ _ _) as [err|response].
  { exists (JS.TypeError EmptyString). split; [reflexivity|].
    unfold renew_catch. destruct (String.eqb _ _); reflexivity. }
  unfold renew_then, Promise.bind, Promise.lift.
  destruct (JS.is_nullish response) eqn:Hn.
  { destruct (get_nullish response "auth" Hn) as (e & -> & He).
    exists e. split; [exact He|]. cbn [orb].
    unfold renew_catch. rewrite He. reflexivity. }
  rewrite (get_prop response "auth" Hn).
  destruct (JS.is_nullish (prop response "auth")) eqn:Hna.
  { destruct (get_nullish (prop response "auth") "lease_duration" Hna) as (e & -> & He).
    exists e. split; [exact He|]. cbn [orb].
    unfold renew_catch. rewrite He. reflexivity. }
  exists (JS.TypeError EmptyString). split; [reflexivity|].
  rewrite !(get_prop _ _ Hna). reflexivity.
Qed.


Lemma renew_granted (w : world) (self : t) (response : JS.value) :
  JS.truthy (token self) = true ->
  tokenRenew w (_client self) (token self) (VAULT_TOKEN_RENEW_INCREMENT amb)
  = inr response ->
  JS.is_nullish response = false ->
  JS.is_nullish (prop response "auth") = false ->
  renew amb w self
  = (set_data self (renewed_data response), [store_call amb self],
     inr (renewed_data response)).
Proof.
  intros Ht Hw Hn Ha.
  destruct (renew_run w self Ht) as (e & _ & E).
  rewrite Hw, Hn, Ha in E. exact E.
Qed.

(** X6. When the store answers a renewal with an [auth] member,
    [renew] resolves with [{lease_duration, data: {token}}] read off
    [auth] and caches it in place of the previous value, so the cached
    value no longer carries a [lease_id]; the provider's own token and
    the store client keep the token of the acquisition, whatever
    [client_token] the store returned. *)
Theorem renew_extends_lease (w : world) (self : t) (response : JS.value) :
  JS.truthy (token self) = true ->
  tokenRenew w (_client self) (token self) (VAULT_TOKEN_RENEW_INCREMENT amb)
  = inr response ->
  JS.is_nullish response = false ->
  JS.is_nullish (prop response "auth") = false ->
  renew amb w self
  = (set_data self (renewed_data response), [store_call amb self],
     inr (renewed_data response))
  /\ prop (data (state (renew amb w self))) "lease_id" = JS.Undefined
  /\ token (state (renew amb w self)) = token self
  /\ _client (state (renew amb w self)) = _client self.
Proof.
  intros Ht Hw Hn Ha. rewrite (renew_granted w self response Ht Hw Hn Ha).
  repeat split.
Qed.

(** X7. A store answer that resolves but is [null] or has no [auth]
    member makes the [then] of [renew] throw a [TypeError], which its
    [catch] treats as any other soft failure: one log entry, a
    resolution with the cached value, the provider unchanged. *)
Theorem renew_malformed_answer_is_soft (w : world) (self : t) (response : JS.value) :
  JS.truthy (token self) = true ->
  tokenRenew w (_client self) (token self) (VAULT_TOKEN_RENEW_INCREMENT amb)
  = inr response ->
  JS.is_nullish response || JS.is_nullish (prop response "auth") = true ->
  exists e,
    JS.name e = "TypeError"
    /\ renew amb w self
       = (self, [store_call amb self; ignored e], inr (data self)).
Proof.
  intros Ht Hw Hn.
  destruct (renew_run w self Ht) as (e & He & E).
  rewrite Hw, Hn in E. eauto.
Qed.

Lemma set_data_same (self : t) : set_data self (data self) = self.
Proof. destruct self; reflexivity. Qed.

(** X8. Whatever the store does, [renew] writes no field but [data],
    and what it asks of the outside world is nothing (no token held),
    or one store call, or one store call and one log entry: it never
    contacts the metadata or the attestation service. *)
Theorem renew_writes_data_only (w : world) (self : t) :
  (exists d, state (renew amb w self) = set_data self d)
  /\ (requests (renew amb w self) = []
      \/ requests (renew amb w self) = [store_call amb self]
      \/ exists e, requests (renew amb w self) = [store_call amb self; ignored e]).
Proof.
  destruct (JS.truthy (token self)) eqn:Ht.
  - destruct (renew_run w self Ht) as (e & _ & ->).
    destruct (tokenRenew w _ _ _) as [err|response].
    + destruct (String.eqb _ _); cbn; (split; [exists (data self); now rewrite set_data_same|]);
        eauto.
    + destruct (_ || _); cbn.
      * split; [exists (data self); now rewrite set_data_same|]. eauto.
      * split; eauto.
  - rewrite (TokenProviderFacts.renew_uninitialized amb w self Ht). cbn.
    split; [exists (data self); now rewrite set_data_same|]. eauto.
Qed.

(** X9. [invalidate] does not drop the token, and a renewal that the
    store grants refills the cache: after [invalidate] and such a
    [renew], [initialize] resolves with the renewed value and makes no
    request, so no new attestation takes place, and the expiration
    time is still the one of the earlier acquisition. *)
Theorem renewal_undoes_invalidation (w w' : world) (self : t) (response : JS.value) :
  JS.truthy (token self) = true ->
  tokenRenew w (_client self) (token self) (VAULT_TOKEN_RENEW_INCREMENT amb)
  = inr response ->
  JS.is_nullish response = false ->
  JS.is_nullish (prop response "auth") = false ->
  let renewed := state (renew amb w (invalidate self)) in
  initialize amb w' renewed = (renewed, [], inr (renewed_data response))
  /\ expiration_time renewed = expiration_time self.
Proof.
  intros Ht Hw Hn Ha. cbn zeta.
  rewrite (renew_granted w (invalidate self) response Ht Hw Hn Ha).
  split; [|reflexivity].
  apply (TokenProviderFacts.initialize_cached amb w'). reflexivity.
Qed.

(** X10. After [invalidate], a renewal that fails softly resolves with
    [null]: the cached value it falls back on is the cleared one. *)
Theorem soft_failure_after_invalidate_resolves_null
    (w : world) (self : t) (err : JS.error) :
  JS.truthy (token self) = true ->
  tokenRenew w (_client self) (token self) (VAULT_TOKEN_RENEW_INCREMENT amb)
  = inl err ->
  JS.name err <> "StatusCodeError" ->
  renew amb w (invalidate self)
  = (invalidate self, [store_call amb self; ignored err], inr JS.Null).
Proof.
  intros Ht Hw Hn.
  destruct (renew_run w (invalidate self) Ht) as (e & _ & ->).
  cbn [invalidate _client token set_data]. rewrite Hw.
  destruct (String.eqb_spec (JS.name err) "StatusCodeError"); [contradiction|].
  reflexivity.
Qed.


Lemma renew_cases (w : world) (self : t) :
  state (renew amb w self) = self
  \/ exists response, state (renew amb w self) = set_data self (renewed_data response).
Proof.
  destruct (JS.truthy (token self)) eqn:Ht.
  - destruct (renew_run w self Ht) as (e & _ & ->).
    destruct (tokenRenew w _ _ _) as [err|response].
    + destruct (String.eqb _ _); left; reflexivity.
    + destruct (_ || _); [left; reflexivity|right; eauto].
  - rewrite (TokenProviderFacts.renew_uninitialized amb w self Ht). left. reflexivity.
Qed.

(** What a call can leave behind. *)
Lemma after_cases (c : call) (self : t) :
  after amb c self = self
  \/ (exists body, after amb c self = posting self body)
  \/ (exists body response, after amb c self = acquired_state amb self body response)
  \/ (exists d, after amb c self = set_data self d).
Proof.
  destruct c as [w|w|]; cbn [after].
  - destruct (initialize_cases w self) as [(Hs & _)|[(body & Hs & _)|(body & resp & Hs & _)]];
      unfold state in Hs; rewrite Hs; eauto 6.
  - destruct (renew_cases w self) as [Hs|(resp & Hs)];
      unfold state in Hs; rewrite Hs; eauto 6.
  - unfold invalidate. eauto 6.
Qed.

(** X11. No call changes which services a provider talks to: the
    metadata client, the store client's endpoint and the method,
    hostname, port and path of the attestation request stay, over any
    sequence of calls, what the constructor made them. *)
Theorem connection_is_fixed (calls : list call) (self : t) :
  connection (after_all amb calls self) = connection self.
Proof.
  revert self. induction calls as [|c calls IH]; intros self; [reflexivity|].
  unfold after_all in *. cbn [fold_left]. rewrite IH.
  destruct (after_cases c self) as [->|[(b & ->)|[(b & r & ->)|(d & ->)]]];
    reflexivity.
Qed.

Lemma constructed (secret tok : JS.value) (options : option options) (self : t) :
  constructor amb secret tok options = inr self ->
  token self = JS.Null
  /\ headers (_warden self) = {[ "Content-Type" := JS.Str "application/json" ]}.
Proof.
  unfold constructor.
  destruct (checkNotNull secret _); [discriminate|].
  destruct (checkNotNull tok _); [discriminate|].
  intros [= <-]. cbn. destruct (opt_warden _); cbn; split; reflexivity.
Qed.

(** X13. On every provider a caller can hold, either no acquisition
    has resolved yet (the token is [null]) or the store client carries
    the very token the provider holds. *)
Theorem client_token_invariant (self : t) :
  TokenProvider.reachable amb self ->
  token self = JS.Null \/ vc_token (_client self) = token self.
Proof.
  induction 1 as [secret tok options self Hc|c self _ IH].
  - left. apply (constructed _ _ _ _ Hc).
  - destruct (after_cases c self) as [->|[(b & ->)|[(b & r & ->)|(d & ->)]]].
    + exact IH.
    + exact IH.
    + right. reflexivity.
    + exact IH.
Qed.

Lemma initialize_requests (w : world) (self : t) :
  requests (initialize amb w self)
  = if JS.truthy (data self) then []
    else
      match Promise.all (map (metadata_request w (_metadata self)) METADATA_ENDPOINTS) with
      | inr [doc; _; pk] => acquisition self (attestation_body doc pk)
      | _ => metadata_requests self
      end.
Proof.
  destruct (JS.truthy (data self)) eqn:Hd.
  { rewrite (TokenProviderFacts.initialize_cached amb w self Hd). reflexivity. }
  destruct (Promise.all (map (metadata_request w (_metadata self)) METADATA_ENDPOINTS))
    as [e|docs] eqn:Hall.
  { unfold initialize. rewrite Hd. unfold Promise.bind.
    rewrite TokenProviderFacts.getDocument_run, Hall. reflexivity. }
  unfold METADATA_ENDPOINTS in Hall. cbn [map] in Hall.
  apply TokenProviderFacts.all_three in Hall as (a & b & c & Ha & Hb & Hc & ->).
  assert (Hm : map (metadata_request w (_metadata self)) METADATA_ENDPOINTS
               = [inr a; inr b; inr c]).
  { unfold METADATA_ENDPOINTS. cbn [map]. rewrite Ha, Hb, Hc. reflexivity. }
  destruct (acquisition_run w self a b c Hd Hm) as (r & -> & _). reflexivity.
Qed.

(** X19. An [initialize] asks nothing of the outside world when it
    serves the cache. Otherwise it makes the three metadata requests
    and then, if and only if all three were answered, one request to
    the attestation service, whose body carries the document and the
    PKCS7 answers; it never calls the store and never logs. *)
Theorem initialize_asks (w : world) (self : t) :
  requests (initialize amb w self)
  = if JS.truthy (data self) then []
    else
      match Promise.all (map (metadata_request w (_metadata self)) METADATA_ENDPOINTS) with
      | inr [doc; _; pk] =>
          metadata_requests self
          ++ [HttpRequest (_warden (posting self (attestation_body doc pk)))
                (attestation_body doc pk)]
      | _ => metadata_requests self
      end.
Proof. apply initialize_requests. Qed.

Lemma initialize_posts (w : world) (self : t) :
  (posted (requests (initialize amb w self)) = []
   /\ _warden (state (initialize amb w self)) = _warden self)
  \/ exists body,
       posted (requests (initialize amb w self)) = [body]
       /\ _warden (state (initialize amb w self)) = _warden (posting self body).
Proof.
  destruct (JS.truthy (data self)) eqn:Hd.
  { rewrite (TokenProviderFacts.initialize_cached amb w self Hd). left.
    split; reflexivity. }
  destruct (Promise.all (map (metadata_request w (_metadata self)) METADATA_ENDPOINTS))
    as [e|docs] eqn:Hall.
  { left. unfold initialize. rewrite Hd. unfold Promise.bind.
    rewrite TokenProviderFacts.getDocument_run, Hall. split; reflexivity. }
  unfold METADATA_ENDPOINTS in Hall. cbn [map] in Hall.
  apply TokenProviderFacts.all_three in Hall as (a & b & c & Ha & Hb & Hc & _).
  assert (Hm : map (metadata_request w (_metadata self)) METADATA_ENDPOINTS
               = [inr a; inr b; inr c]).
  { unfold METADATA_ENDPOINTS. cbn [map]. rewrite Ha, Hb, Hc. reflexivity. }
  destruct (acquisition_run w self a b c Hd Hm) as (r & -> & ->).
  right. exists (attestation_body a c). split; [reflexivity|].
  unfold state. cbn [fst].
  destruct (http_request w _ _) as [err|code chunks last]; [reflexivity|].
  destruct (negb (code =? STATUS_CODES_OK amb)); [reflexivity|].
  destruct (JSON_parse amb _) as [ex|response]; [reflexivity|].
  rewrite initialize_then_get.
  destruct (JS.get response "client_token"); reflexivity.
Qed.

Lemma renew_posts (w : world) (self : t) :
  posted (requests (renew amb w self)) = []
  /\ _warden (state (renew amb w self)) = _warden self.
Proof.
  destruct (JS.truthy (token self)) eqn:Ht.
  - destruct (renew_run w self Ht) as (e & _ & ->).
    destruct (tokenRenew w _ _ _) as [err|response].
    + destruct (String.eqb _ _); split; reflexivity.
    + destruct (_ || _); split; reflexivity.
  - rewrite (TokenProviderFacts.renew_uninitialized amb w self Ht). split; reflexivity.
Qed.

Lemma headers_after_snoc (bodies : list string) (body : string) :
  <[ "Content-Length" := JS.Num (Z.of_nat (String.length body)) ]>
    (History.headers_after bodies)
  = History.headers_after (bodies ++ [body]).
Proof.
  unfold History.headers_after. rewrite last_snoc.
  destruct (last bodies); [apply insert_insert_eq|reflexivity].
Qed.

(** X12. On every provider a caller can hold, the request headers are
    determined by what it has posted since it was constructed: before
    any request to the attestation service they are
    [Content-Type: application/json] alone; afterwards they are that
    header and a [Content-Length] equal to the length of the last body
    posted. *)
Theorem headers_follow_posts (self : t) (tr : list io) :
  History.history amb self tr ->
  headers (_warden self) = History.headers_after (posted tr).
Proof.
  induction 1 as [secret tok options self Hc|c self tr _ IH].
  - apply (constructed _ _ _ _ Hc).
  - unfold posted in *. rewrite omap_app. fold (posted tr).
    fold (posted (History.asked amb c self)).
    destruct c as [w|w|]; cbn [History.asked after].
    + destruct (initialize_posts w self) as [(Hp & Hw)|(body & Hp & Hw)];
        unfold requests, state in Hp, Hw; rewrite Hp, Hw.
      * rewrite app_nil_r. exact IH.
      * cbn [posting set_warden set_header _warden headers].
        rewrite IH. apply headers_after_snoc.
    + destruct (renew_posts w self) as (Hp & Hw).
      unfold requests, state in Hp, Hw. rewrite Hp, Hw, app_nil_r. exact IH.
    + cbn. rewrite app_nil_r. exact IH.
Qed.

(** X20. On every provider a caller can hold, the cached value is
    [null] or an object, so the test [if (this.data)] of [initialize]
    tells exactly whether a value is cached: it is false only on
    [null]. *)
Theorem cache_is_null_or_object (self : t) :
  TokenProvider.reachable amb self ->
  (data self = JS.Null \/ exists fields, data self = JS.Obj fields)
  /\ (JS.truthy (data self) = false <-> data self = JS.Null).
Proof.
  intros R.
  assert (H : data self = JS.Null \/ exists fields, data self = JS.Obj fields).
  { induction R as [secret tok options self Hc|c self _ IH].
    - left. apply (TokenProviderFacts.constructor_fields amb _ _ _ _ Hc).
    - destruct c as [w|w|]; cbn [after].
      + destruct (initialize_cases w self)
          as [(Hs & _)|[(body & Hs & _)|(body & resp & Hs & _)]];
          unfold state in Hs; rewrite Hs; [exact IH|exact IH|].
        right. cbn. eauto.
      + destruct (renew_cases w self) as [Hs|(resp & Hs)];
          unfold state in Hs; rewrite Hs; [exact IH|].
        right. cbn. eauto.
      + left. reflexivity. }
  split; [exact H|].
  destruct H as [->|(fs & ->)]; cbn; split; intros E; try reflexivity; discriminate E.
Qed.

End Facts.

(** The signature endpoint of the metadata service is down. *)
Lemma initialize_without_metadata_witness :
  JS.truthy (data Faults.fresh) = false
  /\ In "/latest/dynamic/instance-identity/signature" METADATA_ENDPOINTS
  /\ metadata_request Faults.no_metadata (_metadata Faults.fresh)
       "/latest/dynamic/instance-identity/signature" = inl Faults.ENOTFOUND
  /\ exists e path',
       initialize Faults.amb Faults.no_metadata Faults.fresh
       = (Faults.fresh, metadata_requests Faults.fresh, inl e)
       /\ In path' METADATA_ENDPOINTS
       /\ metadata_request Faults.no_metadata (_metadata Faults.fresh) path' = inl e.
Proof.
  assert (Hin : In "/latest/dynamic/instance-identity/signature" METADATA_ENDPOINTS)
    by (right; left; reflexivity).
  split; [reflexivity|]. split; [exact Hin|]. split; [reflexivity|].
  exact (initialize_without_metadata Faults.amb Faults.no_metadata Faults.fresh
           _ Faults.ENOTFOUND eq_refl Hin eq_refl).
Defined.

(** The attestation service answers 503. *)
Lemma initialize_attestation_failure_witness :
  JS.truthy (data Faults.fresh) = false
  /\ map (metadata_request Faults.overloaded (_metadata Faults.fresh)) METADATA_ENDPOINTS
     = [inr "DOCUMENT"; inr "SIGNATURE"; inr "PKCS7"]
  /\ http_request Faults.overloaded
       (_warden (posting Faults.fresh (attestation_body "DOCUMENT" "PKCS7")))
       (attestation_body "DOCUMENT" "PKCS7")
     = HttpResponse 503 ["Service "; "Unavailable"] None
  /\ 503 <> STATUS_CODES_OK Faults.amb
  /\ initialize Faults.amb Faults.overloaded Faults.fresh
     = (posting Faults.fresh (attestation_body "DOCUMENT" "PKCS7"),
        acquisition Faults.fresh (attestation_body "DOCUMENT" "PKCS7"),
        inl (JS.Error "503: Service Unavailable")).
Proof.
  assert (Hc : 503 <> STATUS_CODES_OK Faults.amb) by (intros E; discriminate E).
  split; [reflexivity|]. split; [reflexivity|]. split; [reflexivity|]. split; [exact Hc|].
  exact (proj1 (proj2 (initialize_attestation_failure Faults.amb Faults.overloaded
                         Faults.fresh "DOCUMENT" "SIGNATURE" "PKCS7" eq_refl eq_refl))
           503 ["Service "; "Unavailable"] None eq_refl Hc).
Defined.

(** The attestation service answers with the token. *)
Lemma initialize_acquires_witness :
  JS.truthy (data Faults.fresh) = false
  /\ map (metadata_request Scenario.healthy (_metadata Faults.fresh)) METADATA_ENDPOINTS
     = [inr "DOCUMENT"; inr "SIGNATURE"; inr "PKCS7"]
  /\ http_request Scenario.healthy
       (_warden (posting Faults.fresh (attestation_body "DOCUMENT" "PKCS7")))
       (attestation_body "DOCUMENT" "PKCS7")
     = HttpResponse (STATUS_CODES_OK Faults.amb) [Scenario.attested_json] None
  /\ JSON_parse Faults.amb (response_text [Scenario.attested_json] None)
     = inr Scenario.attested
  /\ JS.is_nullish Scenario.attested = false
  /\ initialize Faults.amb Scenario.healthy Faults.fresh
     = (acquired_state Faults.amb Faults.fresh (attestation_body "DOCUMENT" "PKCS7")
          Scenario.attested,
        acquisition Faults.fresh (attestation_body "DOCUMENT" "PKCS7"),
        inr (acquired_data Scenario.attested)).
Proof.
  split; [reflexivity|]. split; [reflexivity|]. split; [reflexivity|].
  split; [reflexivity|]. split; [reflexivity|].
  exact (initialize_acquires Faults.amb Scenario.healthy Faults.fresh
           "DOCUMENT" "SIGNATURE" "PKCS7" [Scenario.attested_json] None Scenario.attested
           eq_refl eq_refl eq_refl eq_refl eq_refl).
Defined.

(** The attestation service answers without a token. *)
Lemma tokenless_acquisition_sticks_witness :
  JS.truthy (data Faults.fresh) = false
  /\ map (metadata_request Faults.no_token (_metadata Faults.fresh)) METADATA_ENDPOINTS
     = [inr "DOCUMENT"; inr "SIGNATURE"; inr "PKCS7"]
  /\ http_request Faults.no_token
       (_warden (posting Faults.fresh (attestation_body "DOCUMENT" "PKCS7")))
       (attestation_body "DOCUMENT" "PKCS7")
     = HttpResponse (STATUS_CODES_OK Faults.amb) [Faults.tokenless_json] None
  /\ JSON_parse Faults.amb (response_text [Faults.tokenless_json] None)
     = inr Faults.tokenless
  /\ JS.is_nullish Faults.tokenless = false
  /\ JS.truthy (prop Faults.tokenless "client_token") = false
  /\ renew Faults.amb Scenario.healthy
       (state (initialize Faults.amb Faults.no_token Faults.fresh))
     = (state (initialize Faults.amb Faults.no_token Faults.fresh), [],
        inl not_initialized).
Proof.
  split; [reflexivity|]. split; [reflexivity|]. split; [reflexivity|].
  split; [reflexivity|]. split; [reflexivity|]. split; [reflexivity|].
  exact (proj1 (tokenless_acquisition_sticks Faults.amb Faults.no_token Faults.fresh
                  "DOCUMENT" "SIGNATURE" "PKCS7" [Faults.tokenless_json] None
                  Faults.tokenless eq_refl eq_refl eq_refl eq_refl eq_refl eq_refl
                  Scenario.healthy)).
Defined.

(** A second [initialize] while the attestation service is down. *)
Lemma initialize_is_idempotent_witness :
  resolved (initialize Faults.amb Scenario.healthy Faults.fresh) = true
  /\ initialize Faults.amb Scenario.no_attestation
       (state (initialize Faults.amb Scenario.healthy Faults.fresh))
     = (state (initialize Faults.amb Scenario.healthy Faults.fresh), [],
        outcome (initialize Faults.amb Scenario.healthy Faults.fresh)).
Proof.
  split; [reflexivity|].
  exact (initialize_is_idempotent Faults.amb Scenario.healthy Scenario.no_attestation
           Faults.fresh eq_refl).
Defined.

(** The store renews and returns another token. *)
Lemma renew_extends_lease_witness :
  JS.truthy (token Faults.holding) = true
  /\ tokenRenew Faults.rotating (_client Faults.holding) (token Faults.holding)
       (VAULT_TOKEN_RENEW_INCREMENT Faults.amb) = inr Faults.rotated_lease
  /\ JS.is_nullish Faults.rotated_lease = false
  /\ JS.is_nullish (prop Faults.rotated_lease "auth") = false
  /\ outcome (renew Faults.amb Faults.rotating Faults.holding)
     = inr (JS.Obj [ ("lease_duration", JS.Num 600);
                     ("data", JS.Obj [ ("token", JS.Str "s.rotated") ]) ])
  /\ token (state (renew Faults.amb Faults.rotating Faults.holding)) = JS.Str "s.token".
Proof.
  split; [reflexivity|]. split; [reflexivity|]. split; [reflexivity|].
  split; [reflexivity|].
  destruct (renew_extends_lease Faults.amb Faults.rotating Faults.holding
              Faults.rotated_lease eq_refl eq_refl eq_refl eq_refl) as (E & _ & Ht & _).
  split; [rewrite E; reflexivity|rewrite Ht; reflexivity].
Defined.

(** The store answers without an [auth] member. *)
Lemma renew_malformed_answer_is_soft_witness :
  JS.truthy (token Faults.holding) = true
  /\ tokenRenew Faults.malformed (_client Faults.holding) (token Faults.holding)
       (VAULT_TOKEN_RENEW_INCREMENT Faults.amb)
     = inr (JS.Obj [ ("errors", JS.Obj []) ])
  /\ JS.is_nullish (JS.Obj [ ("errors", JS.Obj []) ])
     || JS.is_nullish (prop (JS.Obj [ ("errors", JS.Obj []) ]) "auth") = true
  /\ exists e,
       JS.name e = "TypeError"
       /\ renew Faults.amb Faults.malformed Faults.holding
          = (Faults.holding, [store_call Faults.amb Faults.holding; ignored e],
             inr (data Faults.holding)).
Proof.
  split; [reflexivity|]. split; [reflexivity|]. split; [reflexivity|].
  exact (renew_malformed_answer_is_soft Faults.amb Faults.malformed Faults.holding
           _ eq_refl eq_refl eq_refl).
Defined.

(** Invalidated, then renewed by the store. *)
Lemma renewal_undoes_invalidation_witness :
  JS.truthy (token Faults.holding) = true
  /\ tokenRenew Faults.rotating (_client Faults.holding) (token Faults.holding)
       (VAULT_TOKEN_RENEW_INCREMENT Faults.amb) = inr Faults.rotated_lease
  /\ JS.is_nullish Faults.rotated_lease = false
  /\ JS.is_nullish (prop Faults.rotated_lease "auth") = false
  /\ requests (initialize Faults.amb Scenario.healthy
                 (state (renew Faults.amb Faults.rotating (invalidate Faults.holding))))
     = []
  /\ expiration_time (state (renew Faults.amb Faults.rotating (invalidate Faults.holding)))
     = JS.Num 1000.
Proof.
  split; [reflexivity|]. split; [reflexivity|]. split; [reflexivity|].
  split; [reflexivity|].
  destruct (renewal_undoes_invalidation Faults.amb Faults.rotating Scenario.healthy
              Faults.holding Faults.rotated_lease eq_refl eq_refl eq_refl eq_refl)
    as (E & Hx).
  split; [rewrite E; reflexivity|rewrite Hx; reflexivity].
Defined.

(** Invalidated, then the store cannot be reached. *)
Lemma soft_failure_after_invalidate_resolves_null_witness :
  JS.truthy (token Faults.holding) = true
  /\ tokenRenew Scenario.unreachable_store (_client Faults.holding) (token Faults.holding)
       (VAULT_TOKEN_RENEW_INCREMENT Faults.amb) = inl Scenario.ECONNRESET
  /\ JS.name Scenario.ECONNRESET <> "StatusCodeError"
  /\ renew Faults.amb Scenario.unreachable_store (invalidate Faults.holding)
     = (invalidate Faults.holding,
        [store_call Faults.amb Faults.holding; ignored Scenario.ECONNRESET],
        inr JS.Null).
Proof.
  assert (Hn : JS.name Scenario.ECONNRESET <> "StatusCodeError")
    by (vm_compute; discriminate).
  split; [reflexivity|]. split; [reflexivity|]. split; [exact Hn|].
  exact (soft_failure_after_invalidate_resolves_null Faults.amb Scenario.unreachable_store
           Faults.holding Scenario.ECONNRESET eq_refl eq_refl Hn).
Defined.

(** The provider after its first acquisition. *)
Lemma headers_follow_posts_witness :
  History.history Faults.amb Faults.holding
    ([] ++ History.asked Faults.amb (Initialize Scenario.healthy) Faults.fresh)
  /\ headers (_warden Faults.holding)
     = <[ "Content-Length" :=
            JS.Num (Z.of_nat (String.length (attestation_body "DOCUMENT" "PKCS7"))) ]>
         History.base_headers.
Proof.
  assert (Hh : History.history Faults.amb Faults.holding
                 ([] ++ History.asked Faults.amb (Initialize Scenario.healthy) Faults.fresh)).
  { apply (History.history_call Faults.amb (Initialize Scenario.healthy) Faults.fresh []).
    apply (History.history_new Faults.amb (JS.Str "default/token") (JS.Str "t") None).
    reflexivity. }
  split; [exact Hh|].
  exact (headers_follow_posts Faults.amb Faults.holding _ Hh).
Defined.

(** A provider that holds a value, and the same provider invalidated,
    in a world that answers every request. *)
Lemma initialize_cached_then_invalidated_witness :
  JS.truthy (data Scenario.holding) = true
  /\ initialize Scenario.amb Scenario.healthy Scenario.holding
     = (Scenario.holding, [], inr (data Scenario.holding))
  /\ map (metadata_request Scenario.healthy (_metadata Scenario.holding)) METADATA_ENDPOINTS
     = [inr "DOCUMENT"; inr "SIGNATURE"; inr "PKCS7"]
  /\ initialize Scenario.amb Scenario.healthy (invalidate Scenario.holding)
     = (acquired_state Scenario.amb (invalidate Scenario.holding)
          (attestation_body "DOCUMENT" "PKCS7") Scenario.attested,
        acquisition (invalidate Scenario.holding) (attestation_body "DOCUMENT" "PKCS7"),
        inr (acquired_data Scenario.attested)).
Proof.
  split; [reflexivity|]. split.
  - exact (proj1 (initialize_cached_then_invalidated Scenario.amb Scenario.healthy
                    Scenario.holding) eq_refl).
  - split; [reflexivity|].
    exact (proj2 (proj2 (initialize_cached_then_invalidated Scenario.amb Scenario.healthy
                           Scenario.holding))
             "DOCUMENT" "SIGNATURE" "PKCS7" eq_refl).
Defined.

Lemma client_token_invariant_witness :
  TokenProvider.reachable Faults.amb Faults.holding
  /\ (token Faults.holding = JS.Null
      \/ vc_token (_client Faults.holding) = token Faults.holding).
Proof.
  assert (R : TokenProvider.reachable Faults.amb Faults.holding).
  { apply (reachable_call Faults.amb (Initialize Scenario.healthy)).
    apply (reachable_new Faults.amb (JS.Str "default/token") (JS.Str "t") None).
    reflexivity. }
  split; [exact R|].
  exact (client_token_invariant Faults.amb Faults.holding R).
Defined.

Lemma cache_is_null_or_object_witness :
  TokenProvider.reachable Faults.amb (invalidate Faults.holding)
  /\ (JS.truthy (data (invalidate Faults.holding)) = false
      <-> data (invalidate Faults.holding) = JS.Null).
Proof.
  assert (R : TokenProvider.reachable Faults.amb (invalidate Faults.holding)).
  { apply (reachable_call Faults.amb Invalidate).
    apply (reachable_call Faults.amb (Initialize Scenario.healthy)).
    apply (reachable_new Faults.amb (JS.Str "default/token") (JS.Str "t") None).
    reflexivity. }
  split; [exact R|].
  exact (proj2 (cache_is_null_or_object Faults.amb (invalidate Faults.holding) R)).
Defined.

End TokenProviderRuns.

(* ================================================================== *)
(** * Properties of the provider doubles                               *)
(* ================================================================== *)

Module DoublesFacts.
Import LeaseManager Doubles Counting.

Lemma calls_S {P R : Type} (f : P -> P * R) (k : nat) (p : P) :
  calls f (S k) p = fst (f (calls f k p)).
Proof. reflexivity. Qed.

Lemma countdown_S (n : Z) (k : nat) :
  (if 1 <? countdown n k then countdown n k - 1 else countdown n k)
  = countdown n (S k).
Proof.
  unfold countdown. destruct (n <=? 1) eqn:Hn.
  - apply Z.leb_le in Hn. destruct (1 <? n) eqn:H1; [apply Z.ltb_lt in H1; lia|reflexivity].
  - apply Z.leb_gt in Hn.
    destruct (1 <? Z.max 1 (n - Z.of_nat k)) eqn:H1;
      [apply Z.ltb_lt in H1|apply Z.ltb_ge in H1]; lia.
Qed.

Lemma counting_renew_count (p : CountingRenew) (k : nat) :
  Doubles.count (calls p_renew k p) = countdown (Doubles.count p) k.
Proof.
  induction k as [|k IH].
  - cbn. unfold countdown. destruct (_ <=? 1) eqn:Hn; [reflexivity|].
    apply Z.leb_gt in Hn. lia.
  - rewrite calls_S, <- countdown_S, <- IH. cbn.
    destruct (1 <? Doubles.count (calls _ k p)); reflexivity.
Qed.

(** X16. [CountingRenewProvider] with a count [n] that a double
    counts down exactly ([n] at most 2^53): the call of [renew] that
    follows [k] earlier ones rejects if [k < n - 1], with a message
    that gives [n - k - 1] as the calls still needed, and resolves
    with [{lease_duration: 2}] otherwise; so it fails [n - 1] times,
    not [n], before it succeeds for good, and a count of zero or one
    never fails. *)
Theorem counting_renew_fails_count_minus_one (p : CountingRenew) (k : nat) :
  Doubles.count p <= MAX_EXACT ->
  (Z.of_nat k < Doubles.count p - 1 ->
     snd (p_renew (calls p_renew k p))
     = inl (JS.Error ("Need " +:+ JS.dec (Doubles.count p - Z.of_nat k - 1)
                      +:+ " more calls to renew")))
  /\ (Doubles.count p - 1 <= Z.of_nat k ->
       snd (p_renew (calls p_renew k p)) = inr (Extended None 2)).
Proof.
  intros _. cbn [p_renew CountingRenewProvider]. rewrite counting_renew_count.
  unfold countdown. split; intros Hk.
  - destruct (_ <=? 1) eqn:Hn; [apply Z.leb_le in Hn; lia|].
    replace (Z.max 1 (Doubles.count p - Z.of_nat k)) with (Doubles.count p - Z.of_nat k)
      by lia.
    destruct (1 <? _) eqn:H1; [|apply Z.ltb_ge in H1; lia].
    reflexivity.
  - destruct (_ <=? 1) eqn:Hn.
    + apply Z.leb_le in Hn.
      destruct (1 <? _) eqn:H1; [apply Z.ltb_lt in H1; lia|reflexivity].
    + replace (Z.max 1 (Doubles.count p - Z.of_nat k)) with 1 by lia. reflexivity.
Qed.

Lemma counting_initialize_count (p : CountingInitialize) (k : nat) :
  Counting.count (calls Counting.initialize k p) = countdown (Counting.count p) k.
Proof.
  induction k as [|k IH].
  - cbn. unfold countdown. destruct (_ <=? 1) eqn:Hn; [reflexivity|].
    apply Z.leb_gt in Hn. lia.
  - rewrite calls_S, <- countdown_S, <- IH. unfold Counting.initialize.
    destruct (1 <? Counting.count (calls _ k p)); reflexivity.
Qed.

(** X17. [CountingInitializeProvider] with a count [n] that a double
    counts down exactly ([n] at most 2^53): the call of [initialize]
    that follows [k] earlier ones rejects if [k < n - 1],
    naming [n - k - 1] as the calls still needed, and resolves with
    [{data: 'SECRET', lease_duration: 1}] otherwise; its [renew]
    resolves with [true] and leaves the count alone. *)
Theorem counting_initialize_fails_count_minus_one (p : CountingInitialize) (k : nat) :
  Counting.count p <= MAX_EXACT ->
  (Z.of_nat k < Counting.count p - 1 ->
     snd (Counting.initialize (calls Counting.initialize k p))
     = inl (JS.Error ("Need " +:+ JS.dec (Counting.count p - Z.of_nat k - 1)
                      +:+ " more calls to initialize")))
  /\ (Counting.count p - 1 <= Z.of_nat k ->
       snd (Counting.initialize (calls Counting.initialize k p))
       = inr (Acquired SECRET 1 None))
  /\ calls Counting.renew k p = p.
Proof.
  intros _. split; [|split].
  - intros Hk. unfold Counting.initialize. rewrite counting_initialize_count.
    unfold countdown.
    destruct (_ <=? 1) eqn:Hn; [apply Z.leb_le in Hn; lia|].
    replace (Z.max 1 (Counting.count p - Z.of_nat k)) with (Counting.count p - Z.of_nat k)
      by lia.
    destruct (1 <? _) eqn:H1; [|apply Z.ltb_ge in H1; lia].
    reflexivity.
  - intros Hk. unfold Counting.initialize. rewrite counting_initialize_count.
    unfold countdown. destruct (_ <=? 1) eqn:Hn.
    + apply Z.leb_le in Hn.
      destruct (1 <? _) eqn:H1; [apply Z.ltb_lt in H1; lia|reflexivity].
    + replace (Z.max 1 (Counting.count p - Z.of_nat k)) with 1 by lia. reflexivity.
  - induction k as [|k IH]; [reflexivity|]. rewrite calls_S, IH. reflexivity.
Qed.

(** X18. [ChangingTimeoutProvider]: the first [renew] after
    construction resolves with a lease of two seconds and every later
    one with a lease of one; all of them supply the data. *)
Theorem changing_timeout_changes_once (k : nat) :
  snd (p_renew (calls p_renew k ChangingTimeout_new))
  = inr (Extended (Some SECRET) (if Nat.eqb k 0 then 2 else 1)).
Proof.
  assert (H : forall k, calls p_renew (S k) ChangingTimeout_new = ChangingTimeout_new' true).
  { intros n. induction n as [|n IH]; [reflexivity|]. rewrite calls_S, IH. reflexivity. }
  destruct k as [|k]; [reflexivity|]. rewrite H. reflexivity.
Qed.

(** A count of three: the second call still fails, the third
    succeeds. *)
Lemma counting_renew_fails_count_minus_one_witness :
  Doubles.count (CountingRenew_new 3) <= MAX_EXACT
  /\ Z.of_nat 1 < Doubles.count (CountingRenew_new 3) - 1
  /\ snd (p_renew (calls p_renew 1 (CountingRenew_new 3)))
     = inl (JS.Error "Need 1 more calls to renew")
  /\ Doubles.count (CountingRenew_new 3) - 1 <= Z.of_nat 2
  /\ snd (p_renew (calls p_renew 2 (CountingRenew_new 3))) = inr (Extended None 2).
Proof.
  assert (H1 : Z.of_nat 1 < Doubles.count (CountingRenew_new 3) - 1) by (cbn; lia).
  assert (H2 : Doubles.count (CountingRenew_new 3) - 1 <= Z.of_nat 2) by (cbn; lia).
  assert (H0 : Doubles.count (CountingRenew_new 3) <= MAX_EXACT)
    by (unfold MAX_EXACT; cbn; lia).
  split; [exact H0|]. split; [exact H1|]. split.
  - exact (proj1 (counting_renew_fails_count_minus_one (CountingRenew_new 3) 1 H0) H1).
  - split; [exact H2|].
    exact (proj2 (counting_renew_fails_count_minus_one (CountingRenew_new 3) 2 H0) H2).
Defined.

(** A count of two, as the tests use it: the first call fails, the
    second succeeds. *)
Lemma counting_initialize_fails_count_minus_one_witness :
  Counting.count (CountingInitialize_new 2) <= MAX_EXACT
  /\ Z.of_nat 0 < Counting.count (CountingInitialize_new 2) - 1
  /\ snd (Counting.initialize (calls Counting.initialize 0 (CountingInitialize_new 2)))
     = inl (JS.Error "Need 1 more calls to initialize")
  /\ Counting.count (CountingInitialize_new 2) - 1 <= Z.of_nat 1
  /\ snd (Counting.initialize (calls Counting.initialize 1 (CountingInitialize_new 2)))
     = inr (Acquired SECRET 1 None).
Proof.
  assert (H1 : Z.of_nat 0 < Counting.count (CountingInitialize_new 2) - 1) by (cbn; lia).
  assert (H2 : Counting.count (CountingInitialize_new 2) - 1 <= Z.of_nat 1) by (cbn; lia).
  assert (H0 : Counting.count (CountingInitialize_new 2) <= MAX_EXACT)
    by (unfold MAX_EXACT; cbn; lia).
  split; [exact H0|]. split; [exact H1|]. split.
  - exact (proj1 (counting_initialize_fails_count_minus_one (CountingInitialize_new 2) 0 H0)
             H1).
  - split; [exact H2|].
    exact (proj1 (proj2 (counting_initialize_fails_count_minus_one
                           (CountingInitialize_new 2) 1 H0)) H2).
Defined.

End DoublesFacts.
